(** * Response parsing and path resolution of the ownCloud client helpers

    A shallow embedding of the helper methods [_normalizePath], [_encodeUri],
    [_checkOCSstatus], [_parseBody], [_extractPath] and [_parseFileInfo] of
    the helpers class, together with the ECMAScript built-ins they call
    ([String.prototype.split], [Array.prototype.join],
    [decodeURIComponent], [encodeURIComponent], [parseInt],
    [Object.keys]).

    JavaScript strings are sequences of 16-bit code units; code that can
    raise ([URIError], [TypeError]) lives in the [result] monad.  Array
    indices and counts are integers ([Z]), with [-1] for "not found" as in
    the source. *)

From Stdlib Require Import ZArith NArith Ascii String DecimalString.
From Stdlib Require DecimalPos.
From stdpp Require Import base tactics option list numbers gmap.

Local Open Scope N_scope.
Set Warnings "-register-all,-clear-no-such-hyp".

(** ** JavaScript strings *)

(** A string value is the list of its UTF-16 code units (each below 2^16;
    nothing below depends on the bound). *)
Abbreviation jsstring := (list N).

(** The code units of an ASCII literal. *)
Definition js (s : string) : jsstring :=
  N_of_ascii <$> list_ascii_of_string s.

Definition cu (a : ascii) : N := N_of_ascii a.

(** ** Abrupt completion *)

Inductive exn : Type := URIError | TypeError.

Inductive result (A : Type) : Type :=
  | Ok (a : A)
  | Throw (e : exn).
Arguments Ok {A} a.
Arguments Throw {A} e.

Global Instance result_ret : MRet result := λ A a, Ok a.
Global Instance result_bind : MBind result := λ A B f r,
  match r with Ok a => f a | Throw e => Throw e end.
Global Instance result_fmap : FMap result := λ A B f r,
  match r with Ok a => Ok (f a) | Throw e => Throw e end.

(** [arr.map(f)] for an [f] that may throw: left to right, first throw wins. *)
Fixpoint mapR {A B} (f : A → result B) (l : list A) : result (list B) :=
  match l with
  | [] => Ok []
  | x :: l' => y ← f x; ys ← mapR f l'; Ok (y :: ys)
  end.

(** ** String.prototype.split and Array.prototype.join *)

Fixpoint starts_with (sep s : jsstring) : bool :=
  match sep, s with
  | [], _ => true
  | _ :: _, [] => false
  | a :: sep', b :: s' => (a =? b) && starts_with sep' s'
  end.

(** Scan [s] from the left; [cur] holds (reversed) the piece read so far and
    [skip] counts the code units of a separator that was just matched and is
    still to be stepped over. *)
Fixpoint split_go (sep : jsstring) (skip : nat) (cur s : jsstring)
  : list jsstring :=
  match s with
  | [] => [rev cur]
  | c :: s' =>
    match skip with
    | S k => split_go sep k cur s'
    | O =>
      if starts_with sep s
      then rev cur :: split_go sep (pred (length sep)) [] s'
      else split_go sep O (c :: cur) s'
    end
  end.

(** [s.split(sep)] for a non-empty separator [sep]. *)
Definition split (sep s : jsstring) : list jsstring := split_go sep O [] s.

(** [arr.join(sep)] *)
Fixpoint join (sep : jsstring) (l : list jsstring) : jsstring :=
  match l with
  | [] => []
  | [x] => x
  | x :: l' => x ++ sep ++ join sep l'
  end.

(** ** decodeURIComponent (ECMA-262, Decode with an empty preserve set) *)

Definition hexval (c : N) : option N :=
  if (48 <=? c) && (c <=? 57) then Some (c - 48)
  else if (65 <=? c) && (c <=? 70) then Some (c - 55)
  else if (97 <=? c) && (c <=? 102) then Some (c - 87)
  else None.

(** ParseHexOctet on the two code units at the head of [s]. *)
Definition hexOctet (s : jsstring) : result (N * jsstring) :=
  match s with
  | h :: l :: rest =>
    match hexval h, hexval l with
    | Some a, Some b => Ok (16 * a + b, rest)
    | _, _ => Throw URIError
    end
  | _ => Throw URIError
  end.

(** The number of leading 1 bits of an octet. *)
Definition leading_ones (b : N) : nat :=
  if b <? 128 then 0
  else if b <? 192 then 1
  else if b <? 224 then 2
  else if b <? 240 then 3
  else if b <? 248 then 4
  else 5.

(** [n] further escapes [%XX], each a continuation octet position. *)
Fixpoint continuation (n : nat) (s : jsstring) : result (list N) :=
  match n with
  | O => Ok []
  | S n' =>
    match s with
    | c :: rest =>
      if c =? 37 then
        '(b, rest') ← hexOctet rest;
        bs ← continuation n' rest';
        Ok (b :: bs)
      else Throw URIError
    | [] => Throw URIError
    end
  end.

Definition is_cont (b : N) : bool := (128 <=? b) && (b <? 192).

(** The code point encoded by a whole UTF-8 sequence, if it is valid: right
    continuation octets, shortest form, no surrogate, at most U+10FFFF. *)
Definition utf8_decode (octets : list N) : option N :=
  match octets with
  | [b0; b1] =>
    let cp := (b0 - 192) * 64 + (b1 - 128) in
    if is_cont b1 && (128 <=? cp) then Some cp else None
  | [b0; b1; b2] =>
    let cp := (b0 - 224) * 4096 + (b1 - 128) * 64 + (b2 - 128) in
    if is_cont b1 && is_cont b2 && (2048 <=? cp)
       && negb ((55296 <=? cp) && (cp <=? 57343))
    then Some cp else None
  | [b0; b1; b2; b3] =>
    let cp := (b0 - 240) * 262144 + (b1 - 128) * 4096
              + (b2 - 128) * 64 + (b3 - 128) in
    if is_cont b1 && is_cont b2 && is_cont b3
       && (65536 <=? cp) && (cp <=? 1114111)
    then Some cp else None
  | _ => None
  end.

(** UTF16EncodeCodePoint *)
Definition utf16_encode (cp : N) : jsstring :=
  if cp <? 65536 then [cp]
  else [55296 + (cp - 65536) / 1024; 56320 + (cp - 65536) mod 1024].

(** One escape sequence, read from the code units after its first [%]:
    the code units it stands for and how many code units it spans. *)
Definition decodeEscape (s : jsstring) : result (jsstring * nat) :=
  '(b, rest) ← hexOctet s;
  match leading_ones b with
  | O => Ok ([b], 2%nat)
  | 2%nat | 3%nat | 4%nat =>
    let n := leading_ones b in
    bs ← continuation (pred n) rest;
    match utf8_decode (b :: bs) with
    | Some cp => Ok (utf16_encode cp, (2 + 3 * pred n)%nat)
    | None => Throw URIError
    end
  | _ => Throw URIError
  end.

Fixpoint Decode (skip : nat) (s : jsstring) : result jsstring :=
  match s with
  | [] => Ok []
  | c :: rest =>
    match skip with
    | S k => Decode k rest
    | O =>
      if c =? 37 then
        '(units, span) ← decodeEscape rest;
        r ← Decode span rest;
        Ok (units ++ r)
      else
        r ← Decode O rest;
        Ok (c :: r)
    end
  end.

Definition decodeURIComponent (s : jsstring) : result jsstring := Decode O s.

(** [decodeURIComponent(arr[i])]: an index out of range reads [undefined],
    which ToString turns into the string ["undefined"]. *)
Definition decodeURIComponent_elem (o : option jsstring) : result jsstring :=
  decodeURIComponent (default (js "undefined") o).

(** ** encodeURIComponent (ECMA-262, Encode with uriUnreserved) *)

Definition uriUnreserved (c : N) : bool :=
  ((65 <=? c) && (c <=? 90)) || ((97 <=? c) && (c <=? 122))
  || ((48 <=? c) && (c <=? 57))
  || bool_decide (c ∈ js "-_.!~*'()").

Definition hexdigit (d : N) : N := if d <? 10 then 48 + d else 55 + d.

Definition pct (b : N) : jsstring := [37; hexdigit (b / 16); hexdigit (b mod 16)].

Definition utf8_encode (cp : N) : list N :=
  if cp <? 128 then [cp]
  else if cp <? 2048 then [192 + cp / 64; 128 + cp mod 64]
  else if cp <? 65536 then
    [224 + cp / 4096; 128 + (cp / 64) mod 64; 128 + cp mod 64]
  else [240 + cp / 262144; 128 + (cp / 4096) mod 64;
        128 + (cp / 64) mod 64; 128 + cp mod 64].

Definition is_lead (c : N) : bool := (55296 <=? c) && (c <=? 56319).
Definition is_trail (c : N) : bool := (56320 <=? c) && (c <=? 57343).

Definition escape_cp (cp : N) : jsstring := concat (pct <$> utf8_encode cp).

Fixpoint Encode (s : jsstring) : result jsstring :=
  match s with
  | [] => Ok []
  | c :: rest =>
    if uriUnreserved c then r ← Encode rest; Ok (c :: r)
    else if is_lead c then
      match rest with
      | c2 :: rest2 =>
        if is_trail c2 then
          r ← Encode rest2;
          Ok (escape_cp (65536 + (c - 55296) * 1024 + (c2 - 56320)) ++ r)
        else Throw URIError
      | [] => Throw URIError
      end
    else if is_trail c then Throw URIError
    else r ← Encode rest; Ok (escape_cp c ++ r)
  end.

Definition encodeURIComponent (s : jsstring) : result jsstring := Encode s.

(** ** The helpers *)

(** [_normalizePath]: makes sure the path starts with a ['/'].  The
    parameter is a string, so [!path] holds for the empty string only. *)
Definition normalizePath (path : jsstring) : jsstring :=
  let path := if bool_decide (path = []) then js "" else path in
  if (length path =? 0)%nat then js "/"
  else
    if bool_decide (take 1 path ≠ js "/") then js "/" ++ path
    else path.

(** [_encodeUri] *)
Definition encodeUri (path : jsstring) : result jsstring :=
  let path := normalizePath path in
  path ← encodeURIComponent path;
  Ok (join (js "/") (split (js "%2F") path)).

(** ** Arrays *)

(** [arr[i]]: [None] is the [undefined] read outside the array. *)
Definition at_index {A} (l : list A) (i : Z) : option A :=
  if (i <? 0)%Z then None else l !! Z.to_nat i.

Definition len {A} (l : list A) : Z := Z.of_nat (length l).

(** [arr.findIndex(p)] from position [k] on, for a [p] that may throw. *)
Fixpoint findIndex_from {A} (p : A → result bool) (k : Z) (l : list A)
  : result Z :=
  match l with
  | [] => Ok (-1)%Z
  | x :: l' => b ← p x; if (b : bool) then Ok k else findIndex_from p (k + 1)%Z l'
  end.

Definition findIndex {A} (p : A → result bool) (l : list A) : result Z :=
  findIndex_from p 0%Z l.

(** [arr.indexOf(x)] with strict equality, from position [k] on. *)
Fixpoint indexOf_from {A} `{EqDecision A} (x : A) (k : Z) (l : list A) : Z :=
  match l with
  | [] => (-1)%Z
  | y :: l' => if decide (y = x) then k else indexOf_from x (k + 1)%Z l'
  end.

Definition indexOf {A} `{EqDecision A} (l : list A) (x : A) : Z :=
  indexOf_from x 0%Z l.

(** ** _extractPath *)

(** The loop [while (i < pathSections.length) { subPath += '/' +
    decodeURIComponent(pathSections[i]); i++ }]; [n] is the number of
    iterations left, [pathSections.length - i] when that is positive. *)
Fixpoint subPath_loop (pathSections : list jsstring) (n : nat) (i : Z)
    (subPath : jsstring) : result jsstring :=
  match n with
  | O => Ok subPath
  | S n' =>
    d ← decodeURIComponent_elem (at_index pathSections i);
    subPath_loop pathSections n' (i + 1)%Z (subPath ++ js "/" ++ d)
  end.

(** [None] is the [null] the source returns. *)
Definition extractPath (path : jsstring) (leftTrimComponents : Z)
  : result (option jsstring) :=
  let pathSections := split (js "/") path in
  let pathSections := filter (λ section, section ≠ js "") pathSections in
  remoteIndex ← findIndex
    (λ section, d ← decodeURIComponent section;
                Ok (bool_decide (d = js "remote.php")))
    pathSections;
  if (remoteIndex =? -1)%Z then Ok None
  else
    d ← decodeURIComponent_elem (at_index pathSections (remoteIndex + 1)%Z);
    if (indexOf [js "webdav"; js "dav"] d =? -1)%Z then Ok None
    else
      (* leftTrimComponents || 0 *)
      let leftTrimComponents :=
        if (leftTrimComponents =? 0)%Z then 0%Z else leftTrimComponents in
      let subPath := js "" in
      let i := (remoteIndex + leftTrimComponents + 2)%Z in
      subPath ← subPath_loop pathSections
                  (Z.to_nat (len pathSections - i)) i subPath;
      Ok (Some subPath).

(** ** Parsed response bodies *)

(** What the XML or JSON parser hands over.  [VNum z] is the Number with
    the integer value [z] (a safe integer, below 2^53 in magnitude); an
    object is the list of its own enumerable properties in the order in
    which [for in] and [Object.keys] visit them (integer-like keys first,
    ascending, then the others in insertion order), keys pairwise
    distinct. *)
Inductive value : Type :=
  | VUndefined
  | VNull
  | VBool (b : bool)
  | VNum (z : Z)
  | VStr (s : jsstring)
  | VArr (elems : list value)
  | VObj (fields : list (jsstring * value)).

Fixpoint assoc (k : jsstring) (fields : list (jsstring * value))
  : option value :=
  match fields with
  | [] => None
  | (k', v) :: fields' => if decide (k' = k) then Some v else assoc k fields'
  end.

(** [v.k] for a property name [k] that is neither an index nor inherited
    ([ocs], [meta], [statuscode], [message]). *)
Definition get (v : value) (k : jsstring) : result value :=
  match v with
  | VUndefined | VNull => Throw TypeError
  | VObj fields => Ok (default VUndefined (assoc k fields))
  | _ => Ok VUndefined
  end.

(** ToBoolean *)
Definition truthy (v : value) : bool :=
  match v with
  | VUndefined | VNull => false
  | VBool b => b
  | VNum z => negb (z =? 0)%Z
  | VStr s => negb (bool_decide (s = []))
  | VArr _ | VObj _ => true
  end.

(** The decimal numeral of an integer: ToString of a safe-integer Number. *)
Definition decimal (z : Z) : jsstring := js (NilZero.string_of_int (Z.to_int z)).

(** ToString *)
Fixpoint ToString (v : value) : jsstring :=
  match v with
  | VUndefined => js "undefined"
  | VNull => js "null"
  | VBool b => if b then js "true" else js "false"
  | VNum z => decimal z
  | VStr s => s
  | VArr elems =>
    join (js ",")
      ((fix each (l : list value) : list jsstring :=
          match l with
          | [] => []
          | e :: l' =>
            match e with
            | VUndefined | VNull => js ""
            | _ => ToString e
            end :: each l'
          end) elems)
  | VObj _ => js "[object Object]"
  end.

(** [Object.keys(v).length] needs the keys only up to their number; the
    index keys of strings and arrays are given in decimal. *)
Definition Object_keys (v : value) : result (list jsstring) :=
  match v with
  | VUndefined | VNull => Throw TypeError
  | VBool _ | VNum _ => Ok []
  | VStr s => Ok ((λ i, decimal (Z.of_nat i)) <$> seq 0 (length s))
  | VArr elems => Ok ((λ i, decimal (Z.of_nat i)) <$> seq 0 (length elems))
  | VObj fields => Ok (fst <$> fields)
  end.

(** ** parseInt (ECMA-262, radix argument absent) *)

Definition isWhiteSpace (c : N) : bool :=
  bool_decide (c ∈ [9; 10; 11; 12; 13; 32; 160; 5760; 8232; 8233; 8239;
                    8287; 12288; 65279])
  || ((8192 <=? c) && (c <=? 8202)).

Fixpoint trimStart (s : jsstring) : jsstring :=
  match s with
  | c :: s' => if isWhiteSpace c then trimStart s' else s
  | [] => []
  end.

Definition digitVal (radix : Z) (c : N) : option Z :=
  let d := if (48 <=? c) && (c <=? 57) then Some (Z.of_N c - 48)%Z
           else if (97 <=? c) && (c <=? 122) then Some (Z.of_N c - 87)%Z
           else if (65 <=? c) && (c <=? 90) then Some (Z.of_N c - 55)%Z
           else None in
  d ≫= λ d, if (d <? radix)%Z then Some d else None.

(** The value of the longest prefix of radix-[radix] digits; [acc] is
    [None] as long as no digit was read. *)
Fixpoint digits (radix : Z) (acc : option Z) (s : jsstring) : option Z :=
  match s with
  | c :: s' =>
    match digitVal radix c with
    | Some d => digits radix (Some (radix * default 0 acc + d)%Z) s'
    | None => acc
    end
  | [] => acc
  end.

(** [None] is NaN; [Some z] is the mathematical integer that the digits
    denote, which is the Number returned when it is a safe integer (a
    larger one is rounded to the nearest Number). *)
Definition parseInt (v : value) : option Z :=
  let str := trimStart (ToString v) in
  let '(sign, str) :=
    match str with
    | 45 :: str' => ((-1)%Z, str')
    | 43 :: str' => (1%Z, str')
    | _ => (1%Z, str)
    end in
  let '(R, str) :=
    match str with
    | 48 :: x :: str' =>
      if bool_decide (x = 120 ∨ x = 88) then (16%Z, str') else (10%Z, str)
    | _ => (10%Z, str)
    end in
  (λ mathInt, sign * mathInt)%Z <$> digits R None str.

(** [acceptedCodes.indexOf(n)]: NaN is strictly equal to no element. *)
Definition indexOf_num (acceptedCodes : list Z) (n : option Z) : Z :=
  match n with
  | Some z => indexOf acceptedCodes z
  | None => (-1)%Z
  end.

(** ** _checkOCSstatus *)

(** [acceptedCodes] is [None] when the caller leaves the argument out.  The
    result is the value of [ret], which stays [undefined] when no error is
    found. *)
Definition checkOCSstatus (json : value) (acceptedCodes : option (list Z))
  : result value :=
  let acceptedCodes := default [100%Z] acceptedCodes in
  ocs ← get json (js "ocs");
  meta ← (if truthy ocs then get ocs (js "meta") else Ok VUndefined);
  let ret := VUndefined in
  if truthy meta then
    statuscode ← get meta (js "statuscode");
    if (indexOf_num acceptedCodes (parseInt statuscode) =? -1)%Z then
      message ← get meta (js "message");
      let ret := message in
      keys ← Object_keys message;
      if (len keys =? 0)%Z then Ok json else Ok ret
    else Ok ret
  else Ok ret.

(** [_checkOCSstatusCode]: the outer [None] is the [null] returned for an
    envelope without [ocs], the inner one is NaN. *)
Definition checkOCSstatusCode (json : value) : result (option (option Z)) :=
  ocs ← get json (js "ocs");
  if truthy ocs then
    meta ← get ocs (js "meta");
    statuscode ← get meta (js "statuscode");
    Ok (Some (parseInt statuscode))
  else Ok None.

(** ** Multi-status entries *)

(** A child element of a property: its namespace ([None] for [null]) and
    its qualified name. *)
Record XmlNode : Type := { namespaceURI : option jsstring; nodeName : jsstring }.

(** A property value is the text of the property element or the list of
    its child elements. *)
Inductive propValue : Type :=
  | PText (s : jsstring)
  | PNodes (nodes : list XmlNode).

Record PropStat : Type :=
  { status : jsstring; properties : gmap jsstring propValue }.

Record Response : Type := { href : jsstring; propStat : list PropStat }.

Inductive FileType : Type := file | dir.

(** Modelled from the spec: the [FileInfo] class of [fileInfo.js], whose
    constructor stores the name, the type and the property map. *)
Module FileInfo.
Record t : Type :=
  new { name : jsstring; type : FileType;
        properties : gmap jsstring propValue }.
End FileInfo.

(** ** _parseFileInfo *)

(** The test [resType] followed by the inspection of [resType[0]]. *)
Definition fileTypeOf (resType : option propValue) : result FileType :=
  match resType with
  | None | Some (PText []) => Ok file
  | Some (PText (_ :: _)) =>
    (* a one-character string has no [namespaceURI] *)
    Ok file
  | Some (PNodes []) => Throw TypeError
  | Some (PNodes (xmlvalue :: _)) =>
    if bool_decide (namespaceURI xmlvalue = Some (js "DAV:"))
       && bool_decide (at_index (split (js ":") (nodeName xmlvalue)) 1
                       = Some (js "collection"))
    then Ok dir else Ok file
  end.

Definition parseFileInfo (response : Response) (leftTrimComponents : Z)
  : result (option FileInfo.t) :=
  path ← extractPath (href response) leftTrimComponents;
  match path with
  | None => Ok None
  | Some path =>
    let name := path in
    if (len (propStat response) =? 0)%Z
       || bool_decide ((status <$> at_index (propStat response) 0)
                       ≠ Some (js "HTTP/1.1 200 OK"))
    then Ok None
    else
      match at_index (propStat response) 0 with
      | None => Throw TypeError
      | Some ps =>
        let props := properties ps in
        let resType := props !! js "{DAV:}resourcetype" in
        fileType ← fileTypeOf resType;
        Ok (Some (FileInfo.new name fileType props))
      end
  end.

(** ** _parseBody *)

(** The argument is one entry or an array of entries. *)
Inductive responses : Type :=
  | One (r : Response)
  | Many (l : list Response).

Fixpoint parseBody_loop (responses : list Response) (leftTrimComponents : Z)
    (fileInfos : list FileInfo.t) : result (list FileInfo.t) :=
  match responses with
  | [] => Ok fileInfos
  | r :: rest =>
    fileInfo ← parseFileInfo r leftTrimComponents;
    parseBody_loop rest leftTrimComponents
      (match fileInfo with
       | Some fi => fileInfos ++ [fi]
       | None => fileInfos
       end)
  end.

Definition parseBody (rs : responses) (leftTrimComponents : Z)
  : result (list FileInfo.t) :=
  let responses := match rs with One r => [r] | Many l => l end in
  parseBody_loop responses leftTrimComponents [].

(** ** The session state of the helpers object *)

(** The mutable fields of the class; a field that was never assigned is
    [VUndefined]. *)
Record Helpers : Type := {
  instance : value;
  _webdavUrl : value;
  _davPath : value;
  _authHeader : value;
  _versionNumber : value;
  _currentUser : value
}.

(** The fields as the constructor leaves them. *)
Definition constructed : Helpers :=
  {| instance := VNull; _webdavUrl := VUndefined; _davPath := VUndefined;
     _authHeader := VNull; _versionNumber := VNull; _currentUser := VNull |}.

(** [x + 'literal']: string concatenation after ToString. *)
Definition plus_str (x : value) (s : jsstring) : jsstring := ToString x ++ s.

(** [setInstance] *)
Definition setInstance (this : Helpers) (inst : value) : Helpers :=
  {| instance := inst;
     _webdavUrl := VStr (plus_str inst (js "remote.php/webdav"));
     _davPath := VStr (plus_str inst (js "remote.php/dav"));
     _authHeader := _authHeader this;
     _versionNumber := _versionNumber this;
     _currentUser := _currentUser this |}.

(** [getInstance] *)
Definition getInstance (this : Helpers) : value := instance this.

(** [setAuthorization] *)
Definition setAuthorization (this : Helpers) (authHeader : value) : Helpers :=
  {| instance := instance this; _webdavUrl := _webdavUrl this;
     _davPath := _davPath this; _authHeader := authHeader;
     _versionNumber := _versionNumber this;
     _currentUser := _currentUser this |}.

(** [getAuthorization] *)
Definition getAuthorization (this : Helpers) : value := _authHeader this.

(** [logout] *)
Definition logout (this : Helpers) : Helpers :=
  {| instance := instance this; _webdavUrl := _webdavUrl this;
     _davPath := _davPath this; _authHeader := VNull;
     _versionNumber := _versionNumber this; _currentUser := VNull |}.

(** [setCurrentUser] *)
Definition setCurrentUser (this : Helpers) (userInfo : value) : Helpers :=
  {| instance := instance this; _webdavUrl := _webdavUrl this;
     _davPath := _davPath this; _authHeader := _authHeader this;
     _versionNumber := _versionNumber this; _currentUser := userInfo |}.

(** [getCurrentUser] *)
Definition getCurrentUser (this : Helpers) : value := _currentUser this.

(** [_buildFullWebDAVPath] *)
Definition buildFullWebDAVPath (this : Helpers) (path : jsstring)
  : result jsstring :=
  e ← encodeUri path; Ok (ToString (_webdavUrl this) ++ e).

(** [_buildFullWebDAVPathV2] *)
Definition buildFullWebDAVPathV2 (this : Helpers) (path : jsstring)
  : result jsstring :=
  e ← encodeUri path; Ok (ToString (_davPath this) ++ e).

(** ** _convertObjectToBool *)

(** The two tests of the loop body on one property value:
    [if (v === 'true') v = true; if (v === 'false') v = false]. *)
Definition toBool (v : value) : value :=
  let v := match v with
           | VStr s => if bool_decide (s = js "true") then VBool true else v
           | _ => v
           end in
  match v with
  | VStr s => if bool_decide (s = js "false") then VBool false else v
  | _ => v
  end.

(** [typeof object] is ['object'] for objects, arrays and [null]; [for in]
    visits the properties of an object and the indices of an array, and
    nothing for [null]. *)
Definition convertObjectToBool (object : value) : value :=
  match object with
  | VObj fields => VObj ((λ kv, (kv.1, toBool kv.2)) <$> fields)
  | VArr elems => VArr (toBool <$> elems)
  | _ => object
  end.

(** ** escapeXml *)

(** The replacement function of [unsafe.replace], whose global pattern
    matches the less-than and greater-than signs, the ampersand and the
    two quotes; the code units it does not match stay. *)
Definition escapeChar (c : N) : jsstring :=
  if c =? 60 then js "&lt;"
  else if c =? 62 then js "&gt;"
  else if c =? 38 then js "&amp;"
  else if c =? 39 then js "&apos;"
  else if c =? 34 then js "&quot;"
  else [c].

Definition escapeXml (unsafe : value) : value :=
  match unsafe with
  | VStr s => VStr (s ≫= escapeChar)
  | _ => unsafe
  end.

(** ** _OCSuserResponseHandler *)

(** A call of one of the two callbacks of a promise. *)
Inductive call : Type :=
  | CallResolve (v : value)
  | CallReject (reason : value).

(** [parseInt] of what [_checkOCSstatusCode] returned: [parseInt(null)] and
    [parseInt(NaN)] are NaN. *)
Definition parseInt_code (code : option (option Z)) : option Z :=
  match code with
  | Some (Some z) => parseInt (VNum z)
  | _ => None
  end.

(** The calls the handler makes, in order. *)
Definition OCSuserResponseHandler (data : value) : result (list call) :=
  d ← get data (js "data");
  code ← checkOCSstatusCode d;
  let statuscode := parseInt_code code in
  let rejected :=
    if bool_decide (statuscode = Some 999%Z)
    then [CallReject
            (VStr (js "Provisioning API has been disabled at your instance"))]
    else [] in
  Ok (rejected ++ [CallResolve (VBool true)]).

(** ** _parseDAVerror *)

(** [xml2js] is the parser of [xmlParser.js]; whatever it raises is caught. *)
Definition parseDAVerror (xml2js : jsstring → result value) (body : jsstring)
  : jsstring :=
  let attempt : result (option jsstring) :=
    tree ← xml2js body;
    derror ← get tree (js "d:error");
    smessage ← (if truthy derror then get derror (js "s:message")
                else Ok derror);
    if truthy smessage then
      match smessage with
      | VStr message => Ok (Some message)
      | _ => Ok (Some (js ""))
      end
    else Ok None in
  match attempt with
  | Ok (Some message) => message
  | Ok None | Throw _ => js "Unknown error"
  end.

(** ** _makeOCSrequest and _get *)

(** How a promise ends. *)
Inductive settled : Type :=
  | Rejected (reason : value)
  | Resolved (response : value) (body : jsstring) (data : option value).

(** [key in tree]: a [TypeError] unless [tree] is an object. *)
Definition has_property (key : jsstring) (tree : value) : result bool :=
  match tree with
  | VObj fields => Ok (bool_decide (is_Some (assoc key fields)))
  | VArr _ => Ok false
  | _ => Throw TypeError
  end.

(** The callback that [_makeOCSrequest] hands to the transport: the body
    is tried as XML and, if that or the status check raises, as JSON;
    [JSONparse] is [JSON.parse]. *)
Definition ocsResponse (xml2js JSONparse : jsstring → result value)
    (error response : value) (body : jsstring) : settled :=
  if truthy error then Rejected error
  else
    match (tree ← xml2js body;
           error ← checkOCSstatus tree None;
           Ok (tree, error)) with
    | Ok (tree, error) =>
      if truthy error then Rejected error
      else Resolved response body (Some tree)
    | Throw _ =>
      match (tree ← JSONparse body;
             inTree ← has_property (js "message") tree;
             if inTree : bool then
               message ← get tree (js "message"); Ok (tree, Some message)
             else
               error ← checkOCSstatus tree None;
               Ok (tree, if truthy error then Some error else None)) with
      | Ok (_, Some reason) => Rejected reason
      | Ok (tree, None) => Resolved response body (Some tree)
      | Throw _ =>
        Rejected (VStr (js "Invalid response body: " ++ body))
      end
    end.

(** The callback of [_get]. *)
Definition getResponse (error response : value) (body : jsstring) : settled :=
  if truthy error then Rejected error else Resolved response body None.

(** The options of a request, headers in insertion order. *)
Record Options : Type := {
  url : jsstring;
  method : value;
  headers : list (jsstring * value);
  body : option jsstring
}.

(** What lies outside the class: [semver.gte] and [uuidv4]. *)
Record Env : Type := {
  semver_gte : value → jsstring → result bool;
  uuidv4 : jsstring
}.

(** [atLeastVersion] *)
Definition atLeastVersion (env : Env) (this : Helpers) (minVersion : jsstring)
  : result bool :=
  match _versionNumber this with
  | VNull => Ok false
  | v => semver_gte env v minVersion
  end.

(** [buildHeaders] *)
Definition buildHeaders (env : Env) (this : Helpers) (withAuthHeader : bool)
  : result (list (jsstring * value)) :=
  let headers := [(js "OCS-APIREQUEST", VBool true);
                  (js "X-Requested-With", VStr (js "XMLHttpRequest"))] in
  let headers :=
    if withAuthHeader
    then headers ++ [(js "authorization", _authHeader this)]
    else headers in
  newer ← atLeastVersion env this (js "10.1.0");
  Ok (if newer : bool
      then headers ++ [(js "X-Request-ID", VStr (uuidv4 env))]
      else headers).

(** The own enumerable properties [for (const p in obj)] visits. *)
Definition enumerate (obj : value) : list (jsstring * value) :=
  match obj with
  | VObj fields => fields
  | VArr elems => imap (λ i e, (decimal (Z.of_nat i), e)) elems
  | VStr s => imap (λ i c, (decimal (Z.of_nat i), VStr [c])) s
  | _ => []
  end.

(** [serialize] of [_makeOCSrequest] *)
Definition serialize (obj : value) : result jsstring :=
  str ← mapR (λ kv,
                k ← encodeURIComponent kv.1;
                v ← encodeURIComponent (ToString kv.2);
                Ok (k ++ js "=" ++ v))
             (enumerate obj);
  Ok (join (js "&") str).

(** [s.replace(/%20/g, '+')] *)
Definition spaces_to_plus (s : jsstring) : jsstring :=
  join (js "+") (split (js "%20") s).

(** [_makeOCSrequest], up to the call of the transport: the reason of an
    immediate rejection, or the options of the request that is sent (whose
    reply goes to [ocsResponse]). *)
Definition makeOCSrequest (env : Env) (this : Helpers)
    (method service action data : value) : result (jsstring + Options) :=
  if negb (truthy (instance this)) then
    Ok (inl (js "Please specify a server URL first"))
  else if negb (truthy (_authHeader this)) then
    Ok (inl (js "Please specify an authorization first."))
  else
    headers ← buildHeaders env this true;
    let slash := if truthy service then js "/" else js "" in
    let path := ((js "ocs/v1.php/" ++ ToString service) ++ slash)
                ++ ToString action in
    body ← serialize data;
    Ok (inr {| url := ToString (instance this) ++ path;
               method := method;
               headers := headers
                 ++ [(js "content-type",
                      VStr (js "application/x-www-form-urlencoded"))];
               body := Some (spaces_to_plus body) |}).

(** [_get], up to the call of the transport (whose reply goes to
    [getResponse]). *)
Definition get_ (this : Helpers) (url : jsstring) : jsstring + Options :=
  let err := None in
  let err := if negb (truthy (instance this))
             then Some (js "Please specify a server URL first") else err in
  let err := if negb (truthy (_authHeader this))
             then Some (js "Please specify an authorization first.")
             else err in
  match err with
  | Some err => inl err
  | None =>
    inr {| url := url;
           method := VStr (js "GET");
           headers := [(js "authorization", _authHeader this);
                       (js "Content-Type",
                        VStr (js "application/x-www-form-urlencoded"))];
           body := None |}
  end.

(** * Vocabulary of the properties *)

(** The code units [encodeURIComponent] leaves alone, and the separator. *)
Definition plain (c : N) : Prop := uriUnreserved c = true ∨ c = 47.

(** What [encodeURIComponent] makes of a plain path: each ['/'] becomes
    [%2F]. *)
Definition slashes_escaped (s : jsstring) : jsstring :=
  s ≫= λ c, if c =? 47 then js "%2F" else [c].

(** The non-empty ['/']-separated segments of an href. *)
Definition segments (href : jsstring) : list jsstring :=
  filter (λ section, section ≠ js "") (split (js "/") href).

Definition decodes_to (s t : jsstring) : Prop := decodeURIComponent s = Ok t.

(** The segment is a well-formed percent-encoding. *)
Definition decodable (s : jsstring) : Prop := ∃ t, decodes_to s t.

(** [r] is the index of the first segment that decodes to [remote.php]. *)
Definition first_remote (segs : list jsstring) (r : nat) : Prop :=
  (∃ s, segs !! r = Some s ∧ decodes_to s (js "remote.php"))
  ∧ ∀ j s, (j < r)%nat → segs !! j = Some s →
           ¬ decodes_to s (js "remote.php").

(** No segment decodes to [remote.php]. *)
Definition no_remote (segs : list jsstring) : Prop :=
  ∀ s, s ∈ segs → ¬ decodes_to s (js "remote.php").

(** The segment right after index [r] decodes to [webdav] or [dav]. *)
Definition followed_by_dav (segs : list jsstring) (r : nat) : Prop :=
  ∃ s, segs !! S r = Some s
       ∧ (decodes_to s (js "webdav") ∨ decodes_to s (js "dav")).

(** The test [_extractPath] hands to [findIndex]. *)
Definition isRemote (section : jsstring) : result bool :=
  d ← decodeURIComponent section; Ok (bool_decide (d = js "remote.php")).

(** The sub-path built from decoded segments. *)
Definition subPath_of (ds : list jsstring) : jsstring :=
  concat ((λ d, js "/" ++ d) <$> ds).

(** The local part of a qualified XML name: what follows the prefix and
    its colon, or the whole name when there is no prefix. *)
Definition localName (qname : jsstring) : jsstring :=
  match split (js ":") qname with
  | [_; l] => l
  | _ => qname
  end.

(** The entries [_parseBody] walks over. *)
Definition entries (rs : responses) : list Response :=
  match rs with One r => [r] | Many l => l end.

(** The entry decodes to [null]. *)
Definition decodes_to_null (lt : Z) (r : Response) : bool :=
  match parseFileInfo r lt with Ok None => true | _ => false end.

(** The record an entry decodes to, if any. *)
Definition decoded (lt : Z) (r : Response) : option FileInfo.t :=
  match parseFileInfo r lt with Ok o => o | Throw _ => None end.

(** The value of [json.ocs.meta], when the envelope has one. *)
Definition ocs_meta (json : value) : option value :=
  match json with
  | VObj fields =>
    match assoc (js "ocs") fields with
    | Some (VObj ofields) => assoc (js "meta") ofields
    | _ => None
    end
  | _ => None
  end.

(** A zero-length string or an empty structure. *)
Definition empty_message (m : value) : bool :=
  match m with
  | VStr [] | VObj [] | VArr [] => true
  | _ => false
  end.

(** A string or structure with something in it. *)
Definition nonempty_message (m : value) : bool :=
  match m with
  | VStr (_ :: _) | VObj (_ :: _) | VArr (_ :: _) => true
  | _ => false
  end.

(** The envelope [{ocs: {meta: {statuscode, message}}}]. *)
Definition envelope (statuscode : Z) (message : value) : value :=
  VObj [(js "ocs",
         VObj [(js "meta",
                VObj [(js "statuscode", VNum statuscode);
                      (js "message", message)])])].

(** A collection marker with the given qualified name. *)
Definition davNode (qname : jsstring) : XmlNode :=
  {| namespaceURI := Some (js "DAV:"); nodeName := qname |}.

(** The entry for [/remote.php/webdav/docs/subdir/] whose resource type has
    the single child [node]. *)
Definition subdirEntry (node : XmlNode) : Response :=
  {| href := js "/remote.php/webdav/docs/subdir/";
     propStat :=
       [ {| status := js "HTTP/1.1 200 OK";
            properties := {[ js "{DAV:}resourcetype" := PNodes [node] ]} |} ]
  |}.

(** ** Well-formed strings and their escaping *)

(** No unpaired surrogate: every lead surrogate is followed by a trail
    surrogate and every trail surrogate follows a lead surrogate. *)
Fixpoint wellformed (s : jsstring) : bool :=
  match s with
  | [] => true
  | c :: rest =>
    if is_lead c then
      match rest with
      | c2 :: rest2 => is_trail c2 && wellformed rest2
      | [] => false
      end
    else negb (is_trail c) && wellformed rest
  end.

(** Every code unit fits in 16 bits. *)
Definition valid (s : jsstring) : Prop := Forall (λ c, c < 65536) s.

(** The escaping of a string that leaves alone the code units accepted by
    [keep]; for a well-formed string and [keep := uriUnreserved] it is what
    [encodeURIComponent] returns. *)
Fixpoint escapeWith (keep : N → bool) (s : jsstring) : jsstring :=
  match s with
  | [] => []
  | c :: rest =>
    if keep c then c :: escapeWith keep rest
    else if is_lead c then
      match rest with
      | c2 :: rest2 =>
        if is_trail c2 then
          escape_cp (65536 + (c - 55296) * 1024 + (c2 - 56320))
          ++ escapeWith keep rest2
        else escape_cp c ++ escapeWith keep rest
      | [] => escape_cp c
      end
    else escape_cp c ++ escapeWith keep rest
  end.

(** The code units [_encodeUri] leaves alone: the unreserved ones and the
    separator. *)
Definition keptInPath (c : N) : bool := uriUnreserved c || (c =? 47).

(** The five characters [escapeXml] replaces: the less-than and
    greater-than signs, the ampersand, the apostrophe and the double
    quote. *)
Definition markup : list N := [60; 62; 38; 39; 34].

(** The four of them that delimit tags and attribute values. *)
Definition delimiters : list N := [60; 62; 39; 34].

(** The decimal digits of a numeral as code units, and the integer they
    denote when they follow digits worth [acc]. *)
Fixpoint digit_units (d : Decimal.uint) : jsstring :=
  match d with
  | Decimal.Nil => []
  | Decimal.D0 d => 48 :: digit_units d
  | Decimal.D1 d => 49 :: digit_units d
  | Decimal.D2 d => 50 :: digit_units d
  | Decimal.D3 d => 51 :: digit_units d
  | Decimal.D4 d => 52 :: digit_units d
  | Decimal.D5 d => 53 :: digit_units d
  | Decimal.D6 d => 54 :: digit_units d
  | Decimal.D7 d => 55 :: digit_units d
  | Decimal.D8 d => 56 :: digit_units d
  | Decimal.D9 d => 57 :: digit_units d
  end.

Fixpoint uint_val (d : Decimal.uint) (acc : Z) : Z :=
  match d with
  | Decimal.Nil => acc
  | Decimal.D0 d => uint_val d (10 * acc)
  | Decimal.D1 d => uint_val d (10 * acc + 1)
  | Decimal.D2 d => uint_val d (10 * acc + 2)
  | Decimal.D3 d => uint_val d (10 * acc + 3)
  | Decimal.D4 d => uint_val d (10 * acc + 4)
  | Decimal.D5 d => uint_val d (10 * acc + 5)
  | Decimal.D6 d => uint_val d (10 * acc + 6)
  | Decimal.D7 d => uint_val d (10 * acc + 7)
  | Decimal.D8 d => uint_val d (10 * acc + 8)
  | Decimal.D9 d => uint_val d (10 * acc + 9)
  end%Z.

(** The integers that a Number holds exactly and prints in full. *)
Definition safe_integer (z : Z) : Prop :=
  (-9007199254740992 < z < 9007199254740992)%Z.

(** * Properties *)

(** ** The result monad *)

Lemma bind_Ok {A B} (f : A → result B) (r : result A) (b : B) :
  r ≫= f = Ok b → ∃ a, r = Ok a ∧ f a = Ok b.
Proof. destruct r as [a|e]; simpl; [eauto | discriminate]. Qed.

Ltac inv_bind H :=
  let a := fresh "a" in
  let Ha := fresh "Hbind" in
  apply bind_Ok in H; destruct H as (a & Ha & H).

(** ** Splitting and joining *)

Lemma split_go_not_nil sep skip cur s : split_go sep skip cur s ≠ [].
Proof.
  revert skip cur. induction s as [|c s IH]; intros skip cur; simpl; [done|].
  destruct skip; [|apply IH].
  destruct (starts_with sep (c :: s)); [done | apply IH].
Qed.

Lemma join_cons sep x l : l ≠ [] → join sep (x :: l) = x ++ sep ++ join sep l.
Proof. by destruct l. Qed.

(** Joining what a one-unit separator split gives back the string. *)
Lemma join_split_go_single c cur s :
  join [c] (split_go [c] O cur s) = rev cur ++ s.
Proof.
  revert cur. induction s as [|a s IH]; intros cur.
  - simpl. by rewrite app_nil_r.
  - cbn [split_go starts_with length pred].
    destruct (N.eqb_spec c a) as [->|Hne]; cbn [andb].
    + rewrite join_cons by apply split_go_not_nil. by rewrite IH.
    + rewrite IH. simpl. by rewrite <- app_assoc.
Qed.

Lemma join_split_single c s : join [c] (split [c] s) = s.
Proof. apply join_split_go_single. Qed.

Lemma split_go_step_nomatch a sep c cur s :
  a ≠ c → split_go (a :: sep) O cur (c :: s) = split_go (a :: sep) O (c :: cur) s.
Proof.
  intros Hne. cbn [split_go starts_with].
  by rewrite (proj2 (N.eqb_neq a c) Hne).
Qed.

(** Every piece is made of code units of the string. *)
Lemma split_go_Forall (P : N → Prop) sep skip cur s :
  Forall P cur → Forall P s → Forall (Forall P) (split_go sep skip cur s).
Proof.
  revert skip cur. induction s as [|c s IH]; intros skip cur Hcur Hs; simpl.
  - repeat constructor. by apply Forall_rev.
  - inversion Hs; subst. destruct skip; [|by apply IH].
    destruct (starts_with sep (c :: s)).
    + constructor; [by apply Forall_rev | by apply IH].
    + apply IH; [by constructor | done].
Qed.

(** ** Percent-decoding and -encoding *)

Lemma Decode_no_percent s : Forall (λ c, c ≠ 37) s → Decode O s = Ok s.
Proof.
  induction 1 as [|c s Hc _ IH]; simpl; [done|].
  destruct (N.eqb_spec c 37); [done|]. by rewrite IH.
Qed.

Lemma mapR_fixed {A} (f : A → result A) l :
  Forall (λ x, f x = Ok x) l → mapR f l = Ok l.
Proof. induction 1 as [|x l Hx _ IH]; simpl; [done|]. by rewrite Hx, IH. Qed.

Lemma plain_no_percent c : plain c → c ≠ 37.
Proof. intros [H| ->] Heq; [subst c; vm_compute in H|]; discriminate. Qed.

Lemma Encode_plain s : Forall plain s → Encode s = Ok (slashes_escaped s).
Proof.
  induction 1 as [|c s Hc _ IH]; [done|].
  change (slashes_escaped (c :: s))
    with ((if c =? 47 then js "%2F" else [c]) ++ slashes_escaped s).
  simpl. rewrite IH. destruct Hc as [Hc| ->]; [|done].
  rewrite Hc. destruct (N.eqb_spec c 47) as [->|]; [discriminate Hc | done].
Qed.

Lemma split_go_slashes_escaped cur s :
  Forall plain s →
  split_go (js "%2F") O cur (slashes_escaped s) = split_go (js "/") O cur s.
Proof.
  intros Hs. revert cur. induction Hs as [|c s Hc _ IH]; intros cur; [done|].
  change (slashes_escaped (c :: s))
    with ((if c =? 47 then js "%2F" else [c]) ++ slashes_escaped s).
  destruct (N.eqb_spec c 47) as [->|Hne].
  - simpl. by rewrite IH.
  - apply plain_no_percent in Hc as Hc'.
    change (js "%2F") with [37; 50; 70]. change (js "/") with [47].
    cbn [app]. rewrite !split_go_step_nomatch by congruence. apply IH.
Qed.

(** ** C8 and C9: _normalizePath and _encodeUri *)

(** C8. [_normalizePath] is idempotent, maps the empty string to ["/"], and
    its result always starts with ['/']. *)
Theorem normalizePath_idempotent :
  ∀ p : jsstring,
    normalizePath (normalizePath p) = normalizePath p
    ∧ normalizePath (js "") = js "/"
    ∧ ∃ rest, normalizePath p = cu "/" :: rest.
Proof.
  intros p. unfold normalizePath.
  change (js "") with (@nil N). change (js "/") with [47].
  change (cu "/") with 47.
  destruct p as [|c p]; [by (repeat split); eexists|].
  destruct (decide (c = 47)) as [->|Hne];
    repeat (case_bool_decide; simplify_eq/=); try done; repeat split; eauto.
  all: repeat (case_bool_decide; simplify_eq/=); done.
Qed.

Lemma normalizePath_plain p : Forall plain p → Forall plain (normalizePath p).
Proof.
  intros Hp. unfold normalizePath. destruct p as [|c p].
  - constructor; [by right | constructor].
  - repeat (case_bool_decide; simplify_eq/=); try done.
    constructor; [by right | done].
Qed.

(** C9. For a path made of URI-unreserved code units (letters, digits and
    the marks [-_.!~*'()], which [encodeURIComponent] leaves alone) and
    ['/'] only, [_encodeUri] returns the normalized path itself, with no
    ['/'] turned into an escape, and percent-decoding each of its
    ['/']-separated segments and joining them again gives the normalized
    path. *)
Theorem encodeUri_roundtrip :
  ∀ p : jsstring,
    Forall plain p →
    encodeUri p = Ok (normalizePath p)
    ∧ (cu "%" ∉ normalizePath p)
    ∧ (e ← encodeUri p;
       ds ← mapR decodeURIComponent (split (js "/") e);
       Ok (join (js "/") ds)) = Ok (normalizePath p).
Proof.
  intros p Hp. apply normalizePath_plain in Hp.
  assert (encodeUri p = Ok (normalizePath p)) as Henc.
  { unfold encodeUri, encodeURIComponent. rewrite Encode_plain by done. simpl.
    unfold split. rewrite split_go_slashes_escaped by done.
    f_equal. apply join_split_single. }
  assert (Forall (λ c, c ≠ 37) (normalizePath p)) as Hnp.
  { eapply Forall_impl; [exact Hp|]. apply plain_no_percent. }
  split_and!; [done| |].
  - intros Hin. rewrite Forall_forall in Hnp. by apply (Hnp _ Hin).
  - rewrite Henc. simpl. rewrite mapR_fixed.
    + simpl. f_equal. apply join_split_single.
    + eapply Forall_impl; [apply split_go_Forall; [constructor | exact Hnp]|].
      intros s Hs. by apply Decode_no_percent.
Qed.

Lemma encodeUri_roundtrip_witness :
  Forall plain (js "docs/a-b_c.txt")
  ∧ encodeUri (js "docs/a-b_c.txt") = Ok (js "/docs/a-b_c.txt").
Proof.
  assert (Forall plain (js "docs/a-b_c.txt")) as H.
  { apply Forall_forall. intros c Hc. unfold plain.
    destruct (uriUnreserved c) eqn:Hu; [by left | right].
    vm_compute in Hc. repeat (apply elem_of_cons in Hc as [-> | Hc];
      [first [done | discriminate Hu]|]). by apply elem_of_nil in Hc. }
  split; [exact H | exact (proj1 (encodeUri_roundtrip _ H))].
Defined.

(** ** Arrays *)

Lemma at_index_nat {A} (l : list A) (k : nat) : at_index l (Z.of_nat k) = l !! k.
Proof.
  unfold at_index. destruct (Z.ltb_spec (Z.of_nat k) 0); [lia|].
  by rewrite Nat2Z.id.
Qed.

Lemma findIndex_from_found {A} (p : A → result bool) k l r x :
  Forall (λ y, p y = Ok false) (take r l) → l !! r = Some x → p x = Ok true →
  findIndex_from p k l = Ok (k + Z.of_nat r)%Z.
Proof.
  revert k l. induction r as [|r IH]; intros k [|y l] Hpre Hx Hp;
    simplify_eq/=.
  - rewrite Hp. simpl. f_equal. lia.
  - inversion Hpre as [|?? Hy Hpre']; subst. rewrite Hy. simpl.
    rewrite (IH (k + 1)%Z l) by done. f_equal. lia.
Qed.

Lemma findIndex_from_inv {A} (p : A → result bool) k l i :
  (0 ≤ k)%Z → findIndex_from p k l = Ok i →
  (i = (-1)%Z ∧ Forall (λ y, p y = Ok false) l)
  ∨ ∃ r x, i = (k + Z.of_nat r)%Z ∧ Forall (λ y, p y = Ok false) (take r l)
           ∧ l !! r = Some x ∧ p x = Ok true.
Proof.
  revert k. induction l as [|y l IH]; intros k Hk H; simpl in H.
  - left. by simplify_eq.
  - inv_bind H. destruct a.
    + right. exists O, y. simplify_eq. split_and!; [lia | constructor | done..].
    + destruct (IH (k + 1)%Z) as [[-> Hall]|(r & x & -> & Hpre & Hx & Hp)];
        [lia | done | left | right].
      * split; [done | by constructor].
      * exists (S r), x. split_and!; [lia | by constructor | done..].
Qed.

Lemma indexOf_from_neg {A} `{EqDecision A} (x : A) k l :
  (0 ≤ k)%Z → indexOf_from x k l = (-1)%Z ↔ x ∉ l.
Proof.
  revert k. induction l as [|y l IH]; intros k Hk; simpl.
  - split; [intros _; apply not_elem_of_nil | done].
  - rewrite not_elem_of_cons. destruct (decide (y = x)) as [->|Hne].
    + split; [lia | by intros [? _]].
    + rewrite IH by lia. naive_solver.
Qed.

(** ** _extractPath *)

Lemma isRemote_true s : isRemote s = Ok true ↔ decodes_to s (js "remote.php").
Proof.
  unfold isRemote, decodes_to. destruct (decodeURIComponent s) as [t|e]; simpl.
  - case_bool_decide; naive_solver.
  - naive_solver.
Qed.

Lemma isRemote_false s :
  isRemote s = Ok false ↔ ∃ t, decodes_to s t ∧ t ≠ js "remote.php".
Proof.
  unfold isRemote, decodes_to. destruct (decodeURIComponent s) as [t|e]; simpl.
  - case_bool_decide; naive_solver.
  - naive_solver.
Qed.

Lemma first_remote_prefix segs r :
  Forall decodable (take r segs) → first_remote segs r →
  Forall (λ y, isRemote y = Ok false) (take r segs).
Proof.
  intros Hdec [_ Hfirst]. apply Forall_lookup. intros j s Hj.
  apply lookup_take_Some in Hj as [Hj Hlt].
  rewrite Forall_lookup in Hdec.
  destruct (Hdec j s) as [t Ht]; [by apply lookup_take_Some|].
  apply isRemote_false. exists t. split; [done|].
  intros ->. by apply (Hfirst j s).
Qed.

Lemma found_first_remote segs r x :
  Forall (λ y, isRemote y = Ok false) (take r segs) → segs !! r = Some x →
  isRemote x = Ok true → first_remote segs r.
Proof.
  intros Hpre Hx Hp. split.
  - exists x. split; [done | by apply isRemote_true].
  - intros j s Hlt Hj Hdec. rewrite Forall_lookup in Hpre.
    assert (isRemote s = Ok false) as Hs.
    { apply (Hpre j). by apply lookup_take_Some. }
    apply isRemote_true in Hdec. congruence.
Qed.

Lemma first_remote_unique segs r r' :
  first_remote segs r → first_remote segs r' → r = r'.
Proof.
  intros [(s & Hs & Hd) Hmin] [(s' & Hs' & Hd') Hmin'].
  destruct (Nat.lt_trichotomy r r') as [Hlt|[Heq|Hlt]]; [|done|].
  - destruct (Hmin' r s Hlt Hs Hd).
  - destruct (Hmin r' s' Hlt Hs' Hd').
Qed.

Lemma subPath_loop_drop segs k acc :
  subPath_loop segs (length segs - k) (Z.of_nat k) acc
  = ds ← mapR decodeURIComponent (drop k segs); Ok (acc ++ subPath_of ds).
Proof.
  remember (length segs - k)%nat as n eqn:Hn. revert k acc Hn.
  induction n as [|n IH]; intros k acc Hn.
  - rewrite drop_ge by lia. simpl. by rewrite app_nil_r.
  - destruct (lookup_lt_is_Some_2 segs k) as [s Hs]; [lia|].
    rewrite (drop_S _ _ _ Hs). cbn [subPath_loop mapR].
    rewrite at_index_nat, Hs.
    change (decodeURIComponent_elem (Some s)) with (decodeURIComponent s).
    destruct (decodeURIComponent s) as [d|e]; [|done]. cbn [mbind result_bind].
    replace (Z.of_nat k + 1)%Z with (Z.of_nat (S k)) by lia.
    rewrite IH by lia.
    destruct (mapR decodeURIComponent (drop (S k) segs)) as [ds|e]; [|done].
    simpl. unfold subPath_of. simpl. by rewrite <- !app_assoc.
Qed.

Lemma extractPath_eq href lt :
  extractPath href lt =
  remoteIndex ← findIndex isRemote (segments href);
  if (remoteIndex =? -1)%Z then Ok None
  else
    d ← decodeURIComponent_elem (at_index (segments href) (remoteIndex + 1)%Z);
    if (indexOf [js "webdav"; js "dav"] d =? -1)%Z then Ok None
    else
      subPath ← subPath_loop (segments href)
        (Z.to_nat (len (segments href) - (remoteIndex + lt + 2)))
        (remoteIndex + lt + 2)%Z (js "");
      Ok (Some subPath).
Proof.
  unfold extractPath. destruct (Z.eqb_spec lt 0) as [->|]; reflexivity.
Qed.

Lemma split_go_app_sep c cur p q :
  split_go [c] O cur (p ++ c :: q) = split_go [c] O cur p ++ split_go [c] O [] q.
Proof.
  revert cur. induction p as [|a p IH]; intros cur;
    cbn [app split_go starts_with length pred].
  - by rewrite N.eqb_refl.
  - destruct (c =? a); cbn [andb]; by rewrite IH.
Qed.

(** Segments of the parts of an href on both sides of a ['/']. *)
Lemma segments_app_slash p q :
  segments (p ++ js "/" ++ q) = segments p ++ segments q.
Proof.
  unfold segments, split. change (js "/") with [47]. cbn [app].
  by rewrite split_go_app_sep, filter_app.
Qed.

Lemma decode_undefined : decodeURIComponent_elem None = Ok (js "undefined").
Proof. reflexivity. Qed.

(** Once the first [remote.php] segment is located, [_extractPath] goes on
    with the segment after it. *)
Lemma extractPath_found href lt r :
  Forall decodable (take r (segments href)) → first_remote (segments href) r →
  extractPath href lt =
  d ← decodeURIComponent_elem (segments href !! S r);
  if (indexOf [js "webdav"; js "dav"] d =? -1)%Z then Ok None
  else
    subPath ← subPath_loop (segments href)
      (Z.to_nat (len (segments href) - (Z.of_nat r + lt + 2)))
      (Z.of_nat r + lt + 2)%Z (js "");
    Ok (Some subPath).
Proof.
  intros Hdec Hfirst. rewrite extractPath_eq. unfold findIndex.
  pose proof (first_remote_prefix _ _ Hdec Hfirst) as Hpre.
  destruct Hfirst as [(s & Hs & Hd) _]. apply isRemote_true in Hd.
  rewrite (findIndex_from_found _ _ _ _ _ Hpre Hs Hd).
  cbn [mbind result_bind]. rewrite Z.add_0_l.
  destruct (Z.eqb_spec (Z.of_nat r) (-1)); [lia|].
  replace (Z.of_nat r + 1)%Z with (Z.of_nat (S r)) by lia.
  by rewrite at_index_nat.
Qed.

Lemma findIndex_from_total {A} (p : A → result bool) k l :
  Forall (λ y, ∃ b, p y = Ok b) l → ∃ i, findIndex_from p k l = Ok i.
Proof.
  intros Hl. revert k. induction Hl as [|y l [b Hb] _ IH]; intros k; simpl.
  - eauto.
  - rewrite Hb. simpl. destruct b; eauto.
Qed.

Lemma decodable_elem segs i :
  Forall decodable segs → ∃ d, decodeURIComponent_elem (at_index segs i) = Ok d.
Proof.
  intros Hdec. destruct (at_index segs i) as [s|] eqn:Hi.
  - unfold at_index in Hi. destruct (i <? 0)%Z; [done|].
    rewrite Forall_lookup in Hdec. exact (Hdec _ _ Hi).
  - eexists. apply decode_undefined.
Qed.

Lemma subPath_loop_total segs n i acc :
  Forall decodable segs → ∃ subPath, subPath_loop segs n i acc = Ok subPath.
Proof.
  intros Hdec. revert i acc. induction n as [|n IH]; intros i acc; simpl.
  - eauto.
  - destruct (decodable_elem segs i Hdec) as [d ->]. simpl. apply IH.
Qed.

(** C1, as the code has it.  When every segment before the first one that
    decodes to [remote.php] is a well-formed percent-encoding, the segment
    after it decodes to [webdav] or [dav], and the segments from offset
    (remote.php index) + leftTrimComponents + 2 on decode to [ds], then
    [_extractPath] returns the concatenation of the decoded segments, each
    prefixed by ['/']; this is the empty string when no segment is left
    after the offset.  For every href [.../remote.php/webdav/a/b%20c.txt]
    whose leading segments are well-formed and do not decode to
    [remote.php], the result at leftTrimComponents 0 is [/a/b c.txt]. *)
Theorem extractPath_subpath :
  (∀ href lt r ds,
     (0 ≤ lt)%Z →
     Forall decodable (take r (segments href)) →
     first_remote (segments href) r →
     followed_by_dav (segments href) r →
     mapR decodeURIComponent (drop (r + Z.to_nat lt + 2) (segments href))
       = Ok ds →
     extractPath href lt = Ok (Some (subPath_of ds))
     ∧ (ds = [] → extractPath href lt = Ok (Some (js ""))))
  ∧ (∀ prefix,
       Forall decodable (segments prefix) → no_remote (segments prefix) →
       extractPath (prefix ++ js "/remote.php/webdav/a/b%20c.txt") 0
       = Ok (Some (js "/a/b c.txt"))).
Proof.
  assert (∀ href lt r ds,
     (0 ≤ lt)%Z →
     Forall decodable (take r (segments href)) →
     first_remote (segments href) r →
     followed_by_dav (segments href) r →
     mapR decodeURIComponent (drop (r + Z.to_nat lt + 2) (segments href))
       = Ok ds →
     extractPath href lt = Ok (Some (subPath_of ds))) as Hmain.
  { intros href lt r ds Hlt Hdec Hfirst (s & Hs & Hdav) Hds.
    rewrite (extractPath_found _ _ _ Hdec Hfirst), Hs.
    change (decodeURIComponent_elem (Some s)) with (decodeURIComponent s).
    assert (∃ d, decodeURIComponent s = Ok d
                 ∧ indexOf [js "webdav"; js "dav"] d ≠ (-1)%Z) as (d & -> & Hd).
    { destruct Hdav as [H|H]; eexists; (split; [exact H | by vm_compute]). }
    cbn [mbind result_bind].
    destruct (Z.eqb_spec (indexOf [js "webdav"; js "dav"] d) (-1)) as [|_];
      [done|].
    replace (Z.of_nat r + lt + 2)%Z
      with (Z.of_nat (r + Z.to_nat lt + 2)) by lia.
    replace (Z.to_nat (len (segments href) - Z.of_nat (r + Z.to_nat lt + 2)))
      with (length (segments href) - (r + Z.to_nat lt + 2))%nat
      by (unfold len; lia).
    rewrite subPath_loop_drop, Hds. reflexivity. }
  split.
  - intros href lt r ds Hlt Hdec Hfirst Hdav Hds.
    split; [by eapply Hmain|].
    intros ->. by rewrite (Hmain _ _ _ _ Hlt Hdec Hfirst Hdav Hds).
  - intros prefix Hdec Hno.
    set (tail := js "remote.php/webdav/a/b%20c.txt").
    change (prefix ++ js "/remote.php/webdav/a/b%20c.txt")
      with (prefix ++ js "/" ++ tail).
    assert (segments (prefix ++ js "/" ++ tail)
            = segments prefix
              ++ [js "remote.php"; js "webdav"; js "a"; js "b%20c.txt"])
      as Hsegs by (by rewrite segments_app_slash).
    rewrite (Hmain _ 0%Z (length (segments prefix))
               [js "a"; js "b c.txt"]); [done | done | ..]; rewrite Hsegs.
    + by rewrite take_app_length.
    + split.
      * exists (js "remote.php"). split; [|done].
        by rewrite lookup_app_r, Nat.sub_diag by lia.
      * intros j s Hj Hs. rewrite lookup_app_l in Hs by done.
        apply Hno. by eapply list_elem_of_lookup_2.
    + exists (js "webdav"). split; [|by left].
      rewrite lookup_app_r by lia.
      by replace (S (length (segments prefix)) - length (segments prefix))%nat
        with 1%nat by lia.
    + replace (length (segments prefix) + Z.to_nat 0 + 2)%nat
        with (length (segments prefix) + 2)%nat by lia.
      by rewrite drop_app_add'.
Qed.

Lemma extractPath_subpath_witness :
  extractPath (js "/owncloud/remote.php/dav/files/admin/a/b%20c.txt") 2
  = Ok (Some (js "/a/b c.txt")).
Proof.
  refine (proj1 (proj1 extractPath_subpath
    (js "/owncloud/remote.php/dav/files/admin/a/b%20c.txt") 2%Z 1%nat
    [js "a"; js "b c.txt"] _ _ _ _ _)).
  - lia.
  - repeat constructor. exists (js "owncloud"). reflexivity.
  - split.
    + exists (js "remote.php"). split; reflexivity.
    + intros j s Hj Hs. assert (j = 0%nat) as -> by lia.
      vm_compute in Hs. injection Hs as <-. vm_compute. discriminate.
  - exists (js "dav"). split; [reflexivity | right; reflexivity].
  - reflexivity.
Defined.

(** C1 as stated fails: the href [/remote.php/webdav/%zz] has [remote.php]
    followed by [webdav], yet [_extractPath] returns nothing: the malformed
    escape [%zz] makes [decodeURIComponent] raise [URIError]. *)
Lemma extractPath_subpath_counterexample :
  first_remote (segments (js "/remote.php/webdav/%zz")) 0
  ∧ followed_by_dav (segments (js "/remote.php/webdav/%zz")) 0
  ∧ extractPath (js "/remote.php/webdav/%zz") 0 = Throw URIError
  ∧ ∀ res, extractPath (js "/remote.php/webdav/%zz") 0 ≠ Ok res.
Proof.
  split_and!.
  - split; [exists (js "remote.php"); split; reflexivity
           | intros j s Hj; by apply Nat.nlt_0_r in Hj].
  - exists (js "webdav"). split; [reflexivity | left; reflexivity].
  - reflexivity.
  - intros res. vm_compute. discriminate.
Qed.

(** C2, as the code has it.  On an href whose segments are all well-formed
    percent-encodings [_extractPath] returns; and whenever it returns (does
    not raise [URIError]), the result is [null] exactly when no segment
    decodes to [remote.php] or the segment right after the first such
    segment does not decode to [webdav] or [dav]. *)
Theorem extractPath_null_iff :
  (∀ href lt, Forall decodable (segments href) →
              ∃ res, extractPath href lt = Ok res)
  ∧ (∀ href lt res,
       extractPath href lt = Ok res →
       (res = None ↔
        no_remote (segments href)
        ∨ ∃ r, first_remote (segments href) r
               ∧ ¬ followed_by_dav (segments href) r)).
Proof.
  split.
  - intros href lt Hdec. rewrite extractPath_eq. unfold findIndex.
    destruct (findIndex_from_total isRemote 0%Z (segments href)) as [i ->].
    { eapply Forall_impl; [exact Hdec|]. intros s [t Ht]. unfold isRemote.
      rewrite Ht. simpl. eauto. }
    cbn [mbind result_bind]. destruct (i =? -1)%Z; [eauto|].
    destruct (decodable_elem (segments href) (i + 1) Hdec) as [d ->].
    cbn [mbind result_bind]. destruct (_ =? -1)%Z; [eauto|].
    destruct (subPath_loop_total (segments href)
      (Z.to_nat (len (segments href) - (i + lt + 2))) (i + lt + 2)%Z (js "")
      Hdec) as [sp ->].
    simpl. eauto.
  - intros href lt res H. rewrite extractPath_eq in H. unfold findIndex in H.
    inv_bind H. rename a into i.
    apply findIndex_from_inv in Hbind; [|lia].
    destruct Hbind as [[-> Hall]|(r & x & -> & Hpre & Hx & Hp)].
    + simpl in H. simplify_eq. split; [intros _; left | done].
      intros s Hs Hd. rewrite Forall_forall in Hall.
      apply isRemote_true in Hd. specialize (Hall s Hs). congruence.
    + pose proof (found_first_remote _ _ _ Hpre Hx Hp) as Hfirst.
      rewrite Z.add_0_l in H.
      destruct (Z.eqb_spec (Z.of_nat r) (-1)); [lia|].
      replace (Z.of_nat r + 1)%Z with (Z.of_nat (S r)) in H by lia.
      rewrite at_index_nat in H. inv_bind H. rename a into d.
      destruct (Z.eqb_spec (indexOf [js "webdav"; js "dav"] d) (-1))
        as [Hidx|Hidx].
      * simplify_eq. split; [intros _; right | done].
        exists r. split; [done|]. intros (s & Hs & Hdav).
        rewrite Hs in Hbind.
        change (decodeURIComponent_elem (Some s))
          with (decodeURIComponent s) in Hbind.
        unfold decodes_to in Hdav.
        destruct Hdav as [Hd|Hd]; rewrite Hd in Hbind; simplify_eq;
          by vm_compute in Hidx.
      * inv_bind H. simplify_eq. split; [done|].
        intros [Hno|(r' & Hfirst' & Hnot)]; exfalso.
        { apply (Hno x); [by eapply list_elem_of_lookup_2|].
          by apply isRemote_true. }
        rewrite <- (first_remote_unique _ _ _ Hfirst Hfirst') in Hnot.
        apply Hnot. unfold indexOf in Hidx.
        rewrite indexOf_from_neg in Hidx by done.
        apply dec_stable in Hidx.
        destruct (segments href !! S r) as [s|] eqn:Hs.
        -- exists s. split; [done|].
           change (decodeURIComponent_elem (Some s))
             with (decodeURIComponent s) in Hbind. unfold decodes_to.
           rewrite Hbind. set_solver.
        -- rewrite decode_undefined in Hbind. simplify_eq.
           apply list_elem_of_In in Hidx. vm_compute in Hidx.
           destruct Hidx as [?|[?|[]]]; discriminate.
Qed.

Lemma extractPath_null_iff_witness :
  extractPath (js "/index.php/apps/files") 0 = Ok None
  ∧ (@None jsstring = None ↔
     no_remote (segments (js "/index.php/apps/files"))
     ∨ ∃ r, first_remote (segments (js "/index.php/apps/files")) r
            ∧ ¬ followed_by_dav (segments (js "/index.php/apps/files")) r).
Proof.
  split; [reflexivity|].
  exact (proj2 extractPath_null_iff (js "/index.php/apps/files") 0%Z None
           eq_refl).
Defined.

(** C2 as stated fails: in [/remote.php/%zz] the segment after the first
    [remote.php] does not decode to [webdav] or [dav] (it does not decode
    at all), but [_extractPath] raises [URIError] instead of returning
    [null]. *)
Lemma extractPath_null_iff_counterexample :
  ¬ (extractPath (js "/remote.php/%zz") 0 = Ok None ↔
     no_remote (segments (js "/remote.php/%zz"))
     ∨ ∃ r, first_remote (segments (js "/remote.php/%zz")) r
            ∧ ¬ followed_by_dav (segments (js "/remote.php/%zz")) r).
Proof.
  intros [_ H]. assert (extractPath (js "/remote.php/%zz") 0 = Ok None) as Hx.
  { apply H. right. exists 0%nat. split.
    - split; [exists (js "remote.php"); split; reflexivity
           | intros j s Hj; by apply Nat.nlt_0_r in Hj].
    - intros (s & Hs & Hdav). vm_compute in Hs. injection Hs as <-.
      destruct Hdav as [Hd|Hd]; vm_compute in Hd; discriminate. }
  vm_compute in Hx. discriminate.
Qed.

(** C10, as the code has it.  When every segment before the first one that
    decodes to [remote.php] is a well-formed percent-encoding and that
    segment is the last one, [_extractPath] returns [null]: the read past
    the end gives [undefined], which [decodeURIComponent] turns into the
    string ["undefined"], and that is neither [webdav] nor [dav]. *)
Theorem extractPath_remote_last :
  ∀ href lt r,
    Forall decodable (take r (segments href)) →
    first_remote (segments href) r →
    S r = length (segments href) →
    decodeURIComponent_elem (at_index (segments href) (Z.of_nat r + 1))
      = Ok (js "undefined")
    ∧ indexOf [js "webdav"; js "dav"] (js "undefined") = (-1)%Z
    ∧ extractPath href lt = Ok None.
Proof.
  intros href lt r Hdec Hfirst Hlast.
  assert (segments href !! S r = None) as Hnone
    by (apply lookup_ge_None; lia).
  split_and!.
  - replace (Z.of_nat r + 1)%Z with (Z.of_nat (S r)) by lia.
    by rewrite at_index_nat, Hnone.
  - reflexivity.
  - by rewrite (extractPath_found _ _ _ Hdec Hfirst), Hnone.
Qed.

Lemma extractPath_remote_last_witness :
  extractPath (js "/owncloud/remote.php/") 0 = Ok None.
Proof.
  refine (proj2 (proj2 (extractPath_remote_last (js "/owncloud/remote.php/")
    0%Z 1%nat _ _ _))).
  - repeat constructor. exists (js "owncloud"). reflexivity.
  - split.
    + exists (js "remote.php"). split; reflexivity.
    + intros j s Hj Hs. assert (j = 0%nat) as -> by lia.
      vm_compute in Hs. injection Hs as <-. vm_compute. discriminate.
  - reflexivity.
Defined.

(** C10 as stated fails: in [/%zz/remote.php] the segment decoding to
    [remote.php] is the last one, but the search for it raises [URIError]
    on the malformed segment before it. *)
Lemma extractPath_remote_last_counterexample :
  first_remote (segments (js "/%zz/remote.php")) 1
  ∧ 2%nat = length (segments (js "/%zz/remote.php"))
  ∧ extractPath (js "/%zz/remote.php") 0 = Throw URIError
  ∧ extractPath (js "/%zz/remote.php") 0 ≠ Ok None.
Proof.
  split_and!; [|reflexivity|reflexivity|by vm_compute].
  split.
  - exists (js "remote.php"). split; reflexivity.
  - intros j s Hj Hs. assert (j = 0%nat) as -> by lia.
    vm_compute in Hs. injection Hs as <-. vm_compute. discriminate.
Qed.

(** ** _parseFileInfo *)

(** C3. For an entry whose href resolves, [_parseFileInfo] returns [null]
    when the property-status list is empty or the status of its first
    block is not exactly [HTTP/1.1 200 OK], and its result depends on the
    first block only. *)
Theorem parseFileInfo_first_propstat :
  ∀ response lt path,
    extractPath (href response) lt = Ok (Some path) →
    (propStat response = [] → parseFileInfo response lt = Ok None)
    ∧ (∀ ps rest, propStat response = ps :: rest →
                  status ps ≠ js "HTTP/1.1 200 OK" →
                  parseFileInfo response lt = Ok None)
    ∧ (∀ ps rest, propStat response = ps :: rest →
                  parseFileInfo response lt
                  = parseFileInfo {| href := href response;
                                     propStat := [ps] |} lt).
Proof.
  intros [h pss] lt path Hpath. simpl in Hpath. unfold parseFileInfo.
  cbn [href propStat]. rewrite Hpath. cbn [mbind result_bind].
  split_and!.
  - by intros ->.
  - intros ps rest -> Hst. change (at_index (ps :: rest) 0) with (Some ps).
    cbn [fmap option_fmap option_map].
    rewrite bool_decide_eq_true_2 by congruence. by rewrite orb_true_r.
  - by intros ps rest ->.
Qed.

Lemma parseFileInfo_first_propstat_witness :
  parseFileInfo {| href := js "/remote.php/webdav/a";
                   propStat := [ {| status := js "HTTP/1.1 404 Not Found";
                                    properties := ∅ |} ] |} 0
  = Ok None.
Proof.
  refine (proj1 (proj2 (parseFileInfo_first_propstat
    {| href := js "/remote.php/webdav/a";
       propStat := [ {| status := js "HTTP/1.1 404 Not Found";
                        properties := ∅ |} ] |} 0%Z (js "/a") _)) _ [] _ _).
  - reflexivity.
  - reflexivity.
  - simpl. discriminate.
Defined.

(** What the code does for the type: [dir] exactly when the resource type
    is a non-empty child list whose first child has namespace [DAV:] and a
    node name whose second [':']-separated part is [collection]. *)
Lemma fileTypeOf_dir_iff resType :
  fileTypeOf resType = Ok dir ↔
  ∃ node nodes, resType = Some (PNodes (node :: nodes))
    ∧ namespaceURI node = Some (js "DAV:")
    ∧ at_index (split (js ":") (nodeName node)) 1 = Some (js "collection").
Proof.
  split.
  - destruct resType as [[[|??]|[|node nodes]]|]; simpl; try discriminate.
    repeat case_bool_decide; simpl; try discriminate. eauto.
  - intros (node & nodes & -> & Hns & Hname). simpl.
    by rewrite !bool_decide_eq_true_2.
Qed.

(** The scenario of the specification: the prefixed marker [d:collection]
    gives a directory named [/docs/subdir]. *)
Lemma parseFileInfo_subdir_scenario :
  parseFileInfo (subdirEntry (davNode (js "d:collection"))) 0
  = Ok (Some (FileInfo.new (js "/docs/subdir") dir
                {[ js "{DAV:}resourcetype"
                   := PNodes [davNode (js "d:collection")] ]})).
Proof. reflexivity. Qed.

(** C4 (failing input). A [collection] element in the default namespace
    [DAV:], whose qualified name has no prefix, has the local name
    [collection]; [_parseFileInfo] nevertheless types the entry as a file,
    because [nodeName.split(':')[1]] is [undefined] for such a name. *)
Theorem parseFileInfo_unprefixed_collection :
  namespaceURI (davNode (js "collection")) = Some (js "DAV:")
  ∧ localName (nodeName (davNode (js "collection"))) = js "collection"
  ∧ at_index (split (js ":") (nodeName (davNode (js "collection")))) 1 = None
  ∧ parseFileInfo (subdirEntry (davNode (js "collection"))) 0
    = Ok (Some (FileInfo.new (js "/docs/subdir") file
                  {[ js "{DAV:}resourcetype"
                     := PNodes [davNode (js "collection")] ]})).
Proof. split_and!; reflexivity. Qed.

(** ** _parseBody *)

Lemma parseBody_loop_decoded lt l acc :
  Forall (λ r, ∃ o, parseFileInfo r lt = Ok o) l →
  parseBody_loop l lt acc = Ok (acc ++ omap (decoded lt) l).
Proof.
  intros Hl. revert acc. induction Hl as [|r l [o Ho] _ IH]; intros acc.
  - simpl. by rewrite app_nil_r.
  - cbn [parseBody_loop omap list_omap]. unfold decoded at 1.
    rewrite Ho. cbn [mbind result_bind]. rewrite IH.
    destruct o; [by rewrite <- app_assoc | done].
Qed.

Lemma length_omap_decoded lt l :
  Forall (λ r, ∃ o, parseFileInfo r lt = Ok o) l →
  (length (omap (decoded lt) l)
   + length (filter (λ r, decodes_to_null lt r) l) = length l)%nat.
Proof.
  induction 1 as [|r l [o Ho] _ IH]; [done|].
  assert (decoded lt r = o) as Hd by (unfold decoded; by rewrite Ho).
  assert (decodes_to_null lt r = bool_decide (o = None)) as Hn
    by (unfold decodes_to_null; rewrite Ho; by destruct o).
  cbn [omap list_omap]. rewrite Hd. destruct o; simpl in Hn.
  - rewrite filter_cons_False by (rewrite Hn; by intros []). simpl. lia.
  - rewrite filter_cons_True by (by rewrite Hn). simpl. lia.
Qed.

(** C5, as the code has it.  When no entry makes [_parseFileInfo] raise,
    [_parseBody] -- a single entry counting as a one-element array --
    returns the records of the entries that do not decode to [null], in
    input order: N - M records for N entries of which M decode to [null]. *)
Theorem parseBody_order_length :
  ∀ rs lt,
    Forall (λ r, ∃ o, parseFileInfo r lt = Ok o) (entries rs) →
    parseBody rs lt = Ok (omap (decoded lt) (entries rs))
    ∧ length (omap (decoded lt) (entries rs))
      = (length (entries rs)
         - length (filter (λ r, decodes_to_null lt r) (entries rs)))%nat
    ∧ ∀ r, parseBody (One r) lt = parseBody (Many [r]) lt.
Proof.
  intros rs lt Hok. split_and!.
  - unfold parseBody. fold (entries rs).
    by rewrite parseBody_loop_decoded.
  - pose proof (length_omap_decoded lt _ Hok). lia.
  - done.
Qed.

Lemma parseBody_order_length_witness :
  parseBody (Many [subdirEntry (davNode (js "d:collection"));
                   {| href := js "/index.php"; propStat := [] |};
                   subdirEntry (davNode (js "d:principal"))]) 0
  = Ok (omap (decoded 0)
          [subdirEntry (davNode (js "d:collection"));
           {| href := js "/index.php"; propStat := [] |};
           subdirEntry (davNode (js "d:principal"))]).
Proof.
  refine (proj1 (parseBody_order_length
    (Many [subdirEntry (davNode (js "d:collection"));
           {| href := js "/index.php"; propStat := [] |};
           subdirEntry (davNode (js "d:principal"))]) 0%Z _)).
  repeat constructor; eexists; reflexivity.
Defined.

(** C5 as stated fails: the single entry with href [/%zz] does not decode
    to [null] (N = 1, M = 0), yet [_parseBody] returns no sequence at all:
    the [URIError] of [decodeURIComponent] escapes. *)
Lemma parseBody_order_length_counterexample :
  length (entries (One {| href := js "/%zz"; propStat := [] |})) = 1%nat
  ∧ length (filter (λ r, decodes_to_null 0 r)
              (entries (One {| href := js "/%zz"; propStat := [] |}))) = 0%nat
  ∧ parseBody (One {| href := js "/%zz"; propStat := [] |}) 0 = Throw URIError
  ∧ ∀ infos, parseBody (One {| href := js "/%zz"; propStat := [] |}) 0
             ≠ Ok infos.
Proof. split_and!; [reflexivity..|]. intros infos. vm_compute. discriminate. Qed.

(** ** _checkOCSstatus *)

Lemma parseInt_undefined : parseInt VUndefined = None.
Proof. reflexivity. Qed.

(** A status code can only be read off a [meta] that is an object. *)
Lemma statuscode_meta_object meta sc n :
  get meta (js "statuscode") = Ok sc → parseInt sc = Some n →
  ∃ mfields, meta = VObj mfields.
Proof.
  destruct meta; simpl; intros Hsc Hn; simplify_eq; eauto;
    by rewrite parseInt_undefined in Hn.
Qed.

Lemma ocs_meta_Some fields meta :
  ocs_meta (VObj fields) = Some meta →
  ∃ ofields, get (VObj fields) (js "ocs") = Ok (VObj ofields)
             ∧ get (VObj ofields) (js "meta") = Ok meta.
Proof.
  simpl. destruct (assoc (js "ocs") fields) as [[]|]; try discriminate.
  intros Hm. eexists. split; [done|]. simpl. by rewrite Hm.
Qed.

(** With a [meta] object at hand, [_checkOCSstatus] comes down to the test
    of the status code and the size of the message. *)
Lemma checkOCSstatus_meta fields mfields codes :
  ocs_meta (VObj fields) = Some (VObj mfields) →
  checkOCSstatus (VObj fields) codes =
  statuscode ← get (VObj mfields) (js "statuscode");
  if (indexOf_num (default [100%Z] codes) (parseInt statuscode) =? -1)%Z then
    message ← get (VObj mfields) (js "message");
    keys ← Object_keys message;
    if (len keys =? 0)%Z then Ok (VObj fields) else Ok message
  else Ok VUndefined.
Proof.
  intros Hm. apply ocs_meta_Some in Hm as (ofields & Hocs & Hmeta).
  unfold checkOCSstatus. rewrite Hocs. cbn [mbind result_bind truthy].
  rewrite Hmeta. reflexivity.
Qed.

(** C6. [_checkOCSstatus] reports no error -- it returns its unassigned
    [ret], JavaScript's [undefined] -- when the envelope has no [ocs.meta],
    and when [meta.statuscode] parses to an integer among the accepted
    codes ([100] by default); so it does for
    [{ocs: {meta: {statuscode: 100, message: ''}}}]. *)
Theorem checkOCSstatus_no_error :
  (∀ fields codes,
     ocs_meta (VObj fields) = None →
     checkOCSstatus (VObj fields) codes = Ok VUndefined)
  ∧ (∀ fields meta statuscode n codes,
       ocs_meta (VObj fields) = Some meta →
       get meta (js "statuscode") = Ok statuscode →
       parseInt statuscode = Some n →
       n ∈ default [100%Z] codes →
       checkOCSstatus (VObj fields) codes = Ok VUndefined)
  ∧ checkOCSstatus (envelope 100 (VStr (js ""))) None = Ok VUndefined.
Proof.
  split_and!.
  - intros fields codes Hm. unfold checkOCSstatus. simpl in *.
    destruct (assoc (js "ocs") fields) as [[| |[]|z|s|?|ofields]|]; simpl;
      try done.
    + by destruct (z =? 0)%Z.
    + by case_bool_decide.
    + by rewrite Hm.
  - intros fields meta sc n codes Hm Hsc Hn Hin.
    destruct (statuscode_meta_object _ _ _ Hsc Hn) as [mfields ->].
    rewrite (checkOCSstatus_meta _ _ _ Hm), Hsc. cbn [mbind result_bind].
    rewrite Hn. simpl indexOf_num.
    destruct (Z.eqb_spec (indexOf (default [100%Z] codes) n) (-1))
      as [Hidx|]; [|done].
    unfold indexOf in Hidx. by rewrite indexOf_from_neg in Hidx.
  - reflexivity.
Qed.

Lemma checkOCSstatus_no_error_witness :
  checkOCSstatus (VObj [(js "message", VStr (js "pong"))]) None
    = Ok VUndefined
  ∧ checkOCSstatus (envelope 101 VNull) (Some [100; 101]%Z) = Ok VUndefined.
Proof.
  split.
  - refine (proj1 checkOCSstatus_no_error _ None _). reflexivity.
  - refine (proj1 (proj2 checkOCSstatus_no_error) _
      (VObj [(js "statuscode", VNum 101); (js "message", VNull)])
      (VNum 101) 101%Z (Some [100; 101]%Z) _ _ _ _);
      [reflexivity.. |]. simpl. set_solver.
Defined.

(** What the code does for a message that is a string or a structure:
    when [meta.statuscode] parses to an integer outside the accepted
    codes, [_checkOCSstatus] returns [meta.message] if that is a non-empty
    string or structure, and the whole envelope if it is the empty string
    or an empty structure; so [{statuscode: 404, message: 'Wrong path'}]
    gives ['Wrong path'] and [{statuscode: 404, message: ''}] gives the
    envelope itself. *)
Theorem checkOCSstatus_error_payload :
  (∀ fields meta statuscode n message codes,
     ocs_meta (VObj fields) = Some meta →
     get meta (js "statuscode") = Ok statuscode →
     parseInt statuscode = Some n →
     n ∉ default [100%Z] codes →
     get meta (js "message") = Ok message →
     (nonempty_message message = true →
      checkOCSstatus (VObj fields) codes = Ok message)
     ∧ (empty_message message = true →
        checkOCSstatus (VObj fields) codes = Ok (VObj fields)))
  ∧ checkOCSstatus (envelope 404 (VStr (js "Wrong path"))) None
    = Ok (VStr (js "Wrong path"))
  ∧ checkOCSstatus (envelope 404 (VStr (js ""))) None
    = Ok (envelope 404 (VStr (js ""))).
Proof.
  split_and!; [|reflexivity..].
  intros fields meta sc n message codes Hm Hsc Hn Hin Hmsg.
  destruct (statuscode_meta_object _ _ _ Hsc Hn) as [mfields ->].
  rewrite (checkOCSstatus_meta _ _ _ Hm), Hsc. cbn [mbind result_bind].
  rewrite Hn. simpl indexOf_num.
  destruct (Z.eqb_spec (indexOf (default [100%Z] codes) n) (-1))
    as [_|Hidx].
  2:{ unfold indexOf in Hidx. by rewrite indexOf_from_neg in Hidx. }
  rewrite Hmsg. cbn [mbind result_bind].
  split; intros He; destruct message as [| | | |[|??]|[|??]|[|??]];
    try discriminate He; reflexivity.
Qed.

Lemma checkOCSstatus_error_payload_witness :
  checkOCSstatus (envelope 997 (VObj [(js "reason", VStr (js "denied"))])) None
    = Ok (VObj [(js "reason", VStr (js "denied"))])
  ∧ checkOCSstatus (envelope 997 (VObj [])) None = Ok (envelope 997 (VObj [])).
Proof.
  split.
  - refine (proj1 (proj1 checkOCSstatus_error_payload _
      (VObj [(js "statuscode", VNum 997);
             (js "message", VObj [(js "reason", VStr (js "denied"))])])
      (VNum 997) 997%Z _ None _ _ _ _ _) _); [reflexivity.. | | |];
      [simpl; set_solver | reflexivity | reflexivity].
  - refine (proj2 (proj1 checkOCSstatus_error_payload _
      (VObj [(js "statuscode", VNum 997); (js "message", VObj [])])
      (VNum 997) 997%Z _ None _ _ _ _ _) _); [reflexivity.. | | |];
      [simpl; set_solver | reflexivity | reflexivity].
Defined.

(** C7 (failing input). The envelope
    [{ocs: {meta: {statuscode: 404, message: null}}}] has a status code
    outside the accepted codes and no usable message; [_checkOCSstatus]
    neither returns the message nor falls back to the envelope:
    [Object.keys(null)] raises [TypeError].  The same happens when the
    [message] property is missing.  (A message that is a number has no
    keys either and yields the envelope, not the message.) *)
Theorem checkOCSstatus_null_message :
  ocs_meta (envelope 404 VNull)
    = Some (VObj [(js "statuscode", VNum 404); (js "message", VNull)])
  ∧ parseInt (VNum 404) = Some 404%Z
  ∧ (404%Z ∉ default [100%Z] None)
  ∧ checkOCSstatus (envelope 404 VNull) None = Throw TypeError
  ∧ checkOCSstatus
      (VObj [(js "ocs", VObj [(js "meta", VObj [(js "statuscode", VNum 404)])])])
      None
    = Throw TypeError
  ∧ checkOCSstatus (envelope 404 (VNum 5)) None = Ok (envelope 404 (VNum 5)).
Proof.
  split_and!; try reflexivity. cbn [default from_option id].
  rewrite not_elem_of_cons. split; [done | apply not_elem_of_nil].
Qed.

(** * Further properties *)

Ltac lia_div := zify; Z.to_euclidean_division_equations; lia.

(** ** Escapes and UTF-8 *)

Lemma list_ind2 {A} (P : list A → Prop) :
  P [] → (∀ x, P [x]) → (∀ x y l, P l → P (y :: l) → P (x :: y :: l)) →
  ∀ l, P l.
Proof.
  intros Hnil Hone Hstep l.
  assert (P l ∧ ∀ x, P (x :: l)) as [H _]; [|exact H].
  induction l as [|y l [IH1 IH2]]; [by split|].
  split; [apply IH2|]. intros x. by apply Hstep.
Qed.

Lemma uriUnreserved_ascii c : uriUnreserved c = true → c < 128 ∧ c ≠ 37 ∧ c ≠ 47.
Proof.
  unfold uriUnreserved. rewrite !orb_true_iff, !andb_true_iff, !N.leb_le.
  intros [[[?|?]|?]|H]; [lia..|].
  apply bool_decide_eq_true in H. vm_compute in H.
  repeat (apply elem_of_cons in H as [->|H]; [lia|]).
  by apply elem_of_nil in H.
Qed.

Lemma keptInPath_ascii c : keptInPath c = true → c < 128 ∧ c ≠ 37.
Proof.
  unfold keptInPath. rewrite orb_true_iff, N.eqb_eq.
  intros [H| ->]; [apply uriUnreserved_ascii in H|]; lia.
Qed.

Lemma ascii_not_surrogate c : c < 128 → is_lead c = false ∧ is_trail c = false.
Proof.
  intros Hc. unfold is_lead, is_trail.
  split; apply andb_false_iff; left; apply N.leb_gt; lia.
Qed.

Lemma is_lead_not_trail c : is_lead c = true → is_trail c = false.
Proof.
  unfold is_lead, is_trail. rewrite andb_true_iff, andb_false_iff, !N.leb_le,
    !N.leb_gt. lia.
Qed.

Lemma Encode_cons c rest :
  Encode (c :: rest) =
  if uriUnreserved c then r ← Encode rest; Ok (c :: r)
  else if is_lead c then
    match rest with
    | c2 :: rest2 =>
      if is_trail c2 then
        r ← Encode rest2;
        Ok (escape_cp (65536 + (c - 55296) * 1024 + (c2 - 56320)) ++ r)
      else Throw URIError
    | [] => Throw URIError
    end
  else if is_trail c then Throw URIError
  else r ← Encode rest; Ok (escape_cp c ++ r).
Proof. reflexivity. Qed.

Lemma wellformed_cons c rest :
  wellformed (c :: rest) =
  if is_lead c then
    match rest with
    | c2 :: rest2 => is_trail c2 && wellformed rest2
    | [] => false
    end
  else negb (is_trail c) && wellformed rest.
Proof. reflexivity. Qed.

Lemma escapeWith_cons keep c rest :
  escapeWith keep (c :: rest) =
  if keep c then c :: escapeWith keep rest
  else if is_lead c then
    match rest with
    | c2 :: rest2 =>
      if is_trail c2 then
        escape_cp (65536 + (c - 55296) * 1024 + (c2 - 56320))
        ++ escapeWith keep rest2
      else escape_cp c ++ escapeWith keep rest
    | [] => escape_cp c
    end
  else escape_cp c ++ escapeWith keep rest.
Proof. reflexivity. Qed.

(** [encodeURIComponent] raises exactly on the strings with an unpaired
    surrogate, and otherwise escapes everything but the unreserved code
    units. *)
Lemma Encode_escapeWith s :
  Encode s = if wellformed s then Ok (escapeWith uriUnreserved s)
             else Throw URIError.
Proof.
  induction s as [|x|x y l IH1 IH2] using list_ind2.
  - done.
  - rewrite Encode_cons, wellformed_cons, escapeWith_cons.
    destruct (uriUnreserved x) eqn:Hu.
    + destruct (uriUnreserved_ascii _ Hu) as (Hlt & _).
      destruct (ascii_not_surrogate _ Hlt) as [-> ->]. done.
    + destruct (is_lead x) eqn:Hl; [done|].
      destruct (is_trail x); [done|]. simpl. by rewrite app_nil_r.
  - rewrite Encode_cons, wellformed_cons, escapeWith_cons, IH1, IH2.
    destruct (uriUnreserved x) eqn:Hu.
    + destruct (uriUnreserved_ascii _ Hu) as (Hlt & _).
      destruct (ascii_not_surrogate _ Hlt) as [-> ->].
      cbn [negb andb]. by destruct (wellformed (y :: l)).
    + destruct (is_lead x) eqn:Hl.
      * destruct (is_trail y); cbn [andb]; [|done].
        by destruct (wellformed l).
      * destruct (is_trail x); cbn [negb andb]; [done|].
        by destruct (wellformed (y :: l)).
Qed.

Ltac bool_cases :=
  repeat match goal with
  | |- context [(?a <? ?b)] => destruct (N.ltb_spec a b); try lia_div
  | |- context [(?a <=? ?b)] => destruct (N.leb_spec a b); try lia_div
  end.

Lemma hexval_hexdigit d : d < 16 → hexval (hexdigit d) = Some d.
Proof.
  intros Hd. unfold hexdigit, hexval. bool_cases; cbn [andb]; f_equal; lia.
Qed.

Lemma hexdigit_unreserved d : d < 16 → uriUnreserved (hexdigit d) = true.
Proof.
  intros Hd. unfold hexdigit, uriUnreserved.
  destruct (N.ltb_spec d 10); rewrite !orb_true_iff, !andb_true_iff, !N.leb_le;
    [left; right | left; left; left]; lia.
Qed.

Lemma hexOctet_pct b rest :
  b < 256 →
  hexOctet (hexdigit (b / 16) :: hexdigit (b mod 16) :: rest) = Ok (b, rest).
Proof.
  intros Hb. unfold hexOctet.
  rewrite !hexval_hexdigit by lia_div. do 2 f_equal. lia_div.
Qed.

Lemma Decode_percent s :
  Decode O (37 :: s) =
  '(units, span) ← decodeEscape s; r ← Decode span s; Ok (units ++ r).
Proof. reflexivity. Qed.

Lemma Decode_skip pre rest : Decode (length pre) (pre ++ rest) = Decode O rest.
Proof. induction pre as [|c pre IH]; [done|]. exact IH. Qed.

Lemma pcts_cons b bs rest :
  concat (pct <$> (b :: bs)) ++ rest
  = 37 :: hexdigit (b / 16) :: hexdigit (b mod 16)
       :: concat (pct <$> bs) ++ rest.
Proof. reflexivity. Qed.

Lemma length_pcts bs : length (concat (pct <$> bs)) = (3 * length bs)%nat.
Proof. induction bs as [|b bs IH]; [done|]. cbn. rewrite IH. lia. Qed.

Lemma continuation_pcts bs rest :
  Forall (λ b, b < 256) bs →
  continuation (length bs) (concat (pct <$> bs) ++ rest) = Ok bs.
Proof.
  induction 1 as [|b bs Hb _ IH]; [done|].
  rewrite pcts_cons. cbn [length continuation]. rewrite N.eqb_refl.
  rewrite hexOctet_pct by done. cbn [mbind result_bind]. by rewrite IH.
Qed.

(** An escape sequence of several octets. *)
Lemma decodeEscape_multi b0 bs rest cp :
  b0 < 256 → Forall (λ b, b < 256) bs →
  leading_ones b0 = S (length bs) → (0 < length bs ≤ 3)%nat →
  utf8_decode (b0 :: bs) = Some cp →
  decodeEscape (hexdigit (b0 / 16) :: hexdigit (b0 mod 16)
                :: concat (pct <$> bs) ++ rest)
  = Ok (utf16_encode cp, (2 + 3 * length bs)%nat).
Proof.
  intros Hb0 Hbs Hlead Hlen Hcp. unfold decodeEscape.
  rewrite hexOctet_pct by done. cbn [mbind result_bind]. rewrite Hlead.
  assert (continuation (pred (S (length bs))) (concat (pct <$> bs) ++ rest)
          = Ok bs) as Hcont by (apply continuation_pcts; done).
  destruct bs as [|b1 [|b2 [|b3 [|??]]]]; cbn [length] in *; try lia;
    rewrite Hcont; cbn [mbind result_bind]; by rewrite Hcp.
Qed.

Lemma utf8_encode_decode cp :
  128 ≤ cp → cp < 1114112 → ¬ (55296 ≤ cp ≤ 57343) →
  ∃ b0 bs, utf8_encode cp = b0 :: bs ∧ b0 < 256 ∧ Forall (λ b, b < 256) bs
    ∧ Forall (λ b, 128 ≤ b) (b0 :: bs)
    ∧ leading_ones b0 = S (length bs) ∧ (0 < length bs ≤ 3)%nat
    ∧ utf8_decode (b0 :: bs) = Some cp.
Proof.
  intros Hlo Hhi Hsur. unfold utf8_encode.
  destruct (N.ltb_spec cp 128); [lia|].
  destruct (N.ltb_spec cp 2048); [|destruct (N.ltb_spec cp 65536)].
  - eexists _, [_]. split; [done|]. split_and!.
    + lia_div.
    + repeat constructor; lia_div.
    + repeat constructor; lia_div.
    + unfold leading_ones. bool_cases. done.
    + simpl; lia.
    + simpl; lia.
    + unfold utf8_decode, is_cont. bool_cases. cbn [andb]. f_equal. lia_div.
  - eexists _, [_; _]. split; [done|]. split_and!.
    + lia_div.
    + repeat constructor; lia_div.
    + repeat constructor; lia_div.
    + unfold leading_ones. bool_cases. done.
    + simpl; lia.
    + simpl; lia.
    + unfold utf8_decode, is_cont. bool_cases; cbn [andb negb]; try lia_div.
      all: f_equal; lia_div.
  - eexists _, [_; _; _]. split; [done|]. split_and!.
    + lia_div.
    + repeat constructor; lia_div.
    + repeat constructor; lia_div.
    + unfold leading_ones. bool_cases. done.
    + simpl; lia.
    + simpl; lia.
    + unfold utf8_decode, is_cont. bool_cases. cbn [andb]. f_equal. lia_div.
Qed.

Lemma Decode_plain_unit c s :
  c ≠ 37 → Decode O (c :: s) = r ← Decode O s; Ok (c :: r).
Proof. intros Hc. cbn [Decode]. by rewrite (proj2 (N.eqb_neq c 37) Hc). Qed.

(** Decoding the escape of one code point gives its UTF-16 code units. *)
Lemma Decode_escape_cp cp rest :
  cp < 1114112 → ¬ (55296 ≤ cp ≤ 57343) →
  Decode O (escape_cp cp ++ rest) = r ← Decode O rest; Ok (utf16_encode cp ++ r).
Proof.
  intros Hhi Hsur. unfold escape_cp. destruct (N.lt_ge_cases cp 128) as [Hlo|Hlo].
  - assert (utf8_encode cp = [cp]) as ->
      by (unfold utf8_encode; by destruct (N.ltb_spec cp 128); [|lia]).
    rewrite pcts_cons, Decode_percent. unfold decodeEscape.
    rewrite hexOctet_pct by lia. cbn [mbind result_bind].
    assert (leading_ones cp = O) as ->
      by (unfold leading_ones; by destruct (N.ltb_spec cp 128); [|lia]).
    cbn [mbind result_bind fmap list_fmap concat app].
    change (Decode 2 (hexdigit (cp / 16) :: hexdigit (cp mod 16) :: rest))
      with (Decode O rest).
    unfold utf16_encode. by destruct (N.ltb_spec cp 65536); [|lia].
  - destruct (utf8_encode_decode cp Hlo Hhi Hsur)
      as (b0 & bs & -> & Hb0 & Hbs & _ & Hlead & Hlen & Hdec).
    rewrite pcts_cons, Decode_percent.
    rewrite (decodeEscape_multi _ _ _ _ Hb0 Hbs Hlead Hlen Hdec).
    cbn [mbind result_bind].
    replace (2 + 3 * length bs)%nat
      with (length (hexdigit (b0 / 16) :: hexdigit (b0 mod 16)
                    :: concat (pct <$> bs)))
      by (cbn [length]; rewrite length_pcts; lia).
    change (?a :: ?b :: ?l ++ rest) with ((a :: b :: l) ++ rest).
    by rewrite Decode_skip.
Qed.

Lemma surrogate_pair_cp x y :
  is_lead x = true → is_trail y = true →
  let cp := 65536 + (x - 55296) * 1024 + (y - 56320) in
  cp < 1114112 ∧ ¬ (55296 ≤ cp ≤ 57343) ∧ cp ≠ 47 ∧ utf16_encode cp = [x; y].
Proof.
  unfold is_lead, is_trail. rewrite !andb_true_iff, !N.leb_le.
  intros [??] [??]. cbv zeta. split_and!; [lia..|].
  unfold utf16_encode. bool_cases. f_equal; [|f_equal]; lia_div.
Qed.

Lemma not_surrogate c :
  is_lead c = false → is_trail c = false → ¬ (55296 ≤ c ≤ 57343).
Proof.
  unfold is_lead, is_trail. rewrite !andb_false_iff, !N.leb_gt. lia.
Qed.

(** Percent-decoding undoes the escaping of a well-formed string. *)
Lemma Decode_escapeWith keep s :
  (∀ c, keep c = true → c < 128 ∧ c ≠ 37) →
  valid s → wellformed s = true → Decode O (escapeWith keep s) = Ok s.
Proof.
  intros Hkeep. induction s as [|x|x y l IH1 IH2] using list_ind2;
    intros Hv Hwf; [done|..]; rewrite escapeWith_cons;
    rewrite wellformed_cons in Hwf; inversion Hv as [|?? Hx Hv']; subst.
  - destruct (keep x) eqn:Hk.
    { destruct (Hkeep _ Hk) as [_ ?]. by rewrite Decode_plain_unit. }
    destruct (is_lead x) eqn:Hl; [done|].
    destruct (is_trail x) eqn:Ht; [done|].
    rewrite Decode_escape_cp by (by apply not_surrogate || lia).
    cbn [escapeWith Decode mbind result_bind]. unfold utf16_encode.
    by destruct (N.ltb_spec x 65536); [|lia].
  - destruct (keep x) eqn:Hk.
    { destruct (Hkeep _ Hk) as [Hlt ?].
      destruct (ascii_not_surrogate _ Hlt) as [Hl Ht].
      rewrite Hl, Ht in Hwf. rewrite Decode_plain_unit by done.
      by rewrite IH2. }
    destruct (is_lead x) eqn:Hl.
    + apply andb_true_iff in Hwf as [Ht Hwf]. rewrite Ht.
      destruct (surrogate_pair_cp x y Hl Ht) as (Hcp & Hsur & _ & Hpair).
      rewrite Decode_escape_cp by done. rewrite Hpair.
      inversion Hv'; subst. by rewrite IH1.
    + destruct (is_trail x) eqn:Ht; [done|].
      rewrite Decode_escape_cp by (by apply not_surrogate || lia).
      rewrite IH2 by done. cbn [mbind result_bind]. unfold utf16_encode.
      by destruct (N.ltb_spec x 65536); [|lia].
Qed.

(** ** Replacing [%2F] in an escaped string *)

Lemma hexdigit_ge d : 48 ≤ hexdigit d.
Proof. unfold hexdigit. destruct (d <? 10); lia. Qed.

Lemma split_go_cons sep cur c s :
  split_go sep O cur (c :: s) =
  if starts_with sep (c :: s)
  then rev cur :: split_go sep (pred (length sep)) [] s
  else split_go sep O (c :: cur) s.
Proof. reflexivity. Qed.

Lemma split_go_pct b rest cur :
  b ≠ 47 →
  split_go (js "%2F") O cur (pct b ++ rest)
  = split_go (js "%2F") O (rev (pct b) ++ cur) rest.
Proof.
  intros Hb. change (js "%2F") with [37; 50; 70]. unfold pct.
  cbn [app rev]. rewrite split_go_cons.
  assert (starts_with [37; 50; 70]
            (37 :: hexdigit (b / 16) :: hexdigit (b mod 16) :: rest) = false)
    as ->.
  { cbn [starts_with]. rewrite N.eqb_refl. cbn [andb]. apply andb_false_iff.
    destruct (N.eqb_spec 50 (hexdigit (b / 16))) as [H1|]; [right | by left].
    rewrite andb_true_r. apply N.eqb_neq. intros H2.
    unfold hexdigit in H1, H2. revert H1 H2. bool_cases; intros; lia_div. }
  pose proof (hexdigit_ge (b / 16)). pose proof (hexdigit_ge (b mod 16)).
  rewrite !split_go_step_nomatch by lia. done.
Qed.

Lemma split_go_pcts bs rest cur :
  Forall (λ b, b ≠ 47) bs →
  split_go (js "%2F") O cur (concat (pct <$> bs) ++ rest)
  = split_go (js "%2F") O (rev (concat (pct <$> bs)) ++ cur) rest.
Proof.
  intros Hbs. revert cur. induction Hbs as [|b bs Hb _ IH]; intros cur; [done|].
  cbn [fmap list_fmap concat]. rewrite <- app_assoc, split_go_pct by done.
  rewrite IH, rev_app_distr. by rewrite <- app_assoc.
Qed.

Lemma utf8_encode_no_slash cp : cp ≠ 47 → Forall (λ b, b ≠ 47) (utf8_encode cp).
Proof.
  intros Hcp. unfold utf8_encode. bool_cases.
  all: repeat constructor. all: lia_div.
Qed.

Lemma split_go_escape_cp cp rest cur :
  cp ≠ 47 →
  split_go (js "%2F") O cur (escape_cp cp ++ rest)
  = split_go (js "%2F") O (rev (escape_cp cp) ++ cur) rest.
Proof. intros. by apply split_go_pcts, utf8_encode_no_slash. Qed.

(** What [split('%2F').join('/')] makes of an escaped string: the escapes
    of ['/'] become literal again and nothing else changes. *)
Lemma join_split_escapeWith cur s :
  join (js "/") (split_go (js "%2F") O cur (escapeWith uriUnreserved s))
  = rev cur ++ escapeWith keptInPath s.
Proof.
  revert cur. induction s as [|x|x y l IH1 IH2] using list_ind2; intros cur.
  - simpl. by rewrite app_nil_r.
  - rewrite (escapeWith_cons uriUnreserved x), (escapeWith_cons keptInPath x).
    unfold keptInPath at 1.
    destruct (uriUnreserved x) eqn:Hu; cbn [orb].
    { destruct (uriUnreserved_ascii _ Hu) as (_ & ? & _).
      change (js "%2F") with [37; 50; 70].
      rewrite split_go_step_nomatch by done.
      simpl. by rewrite <- ?app_assoc. }
    destruct (N.eqb_spec x 47) as [->|Hne]; [by simpl; rewrite ?app_nil_r|].
    assert (split_go (js "%2F") O cur (escape_cp x)
            = [rev cur ++ escape_cp x]) as Hx.
    { rewrite <- (app_nil_r (escape_cp x)) at 1.
      rewrite split_go_escape_cp by done. cbn [split_go].
      by rewrite rev_app_distr, rev_involutive. }
    destruct (is_lead x); cbn [escapeWith]; rewrite ?app_nil_r, Hx; done.
  - rewrite (escapeWith_cons uriUnreserved x), (escapeWith_cons keptInPath x).
    unfold keptInPath at 1.
    destruct (uriUnreserved x) eqn:Hu; cbn [orb].
    { destruct (uriUnreserved_ascii _ Hu) as (_ & ? & _).
      change (js "%2F") with [37; 50; 70].
      rewrite split_go_step_nomatch by done.
      change [37; 50; 70] with (js "%2F"). rewrite IH2.
      simpl. by rewrite <- app_assoc. }
    destruct (N.eqb_spec x 47) as [->|Hne].
    { change (is_lead 47) with false. cbn iota.
      change (escape_cp 47 ++ escapeWith uriUnreserved (y :: l))
        with (37 :: 50 :: 70 :: escapeWith uriUnreserved (y :: l)).
      change (js "%2F") with [37; 50; 70]. rewrite split_go_cons.
      change (starts_with [37; 50; 70] (37 :: 50 :: 70 :: ?E)) with true.
      cbv iota.
      change (split_go [37; 50; 70] (pred (length [37; 50; 70])) []
                (50 :: 70 :: ?E))
        with (split_go [37; 50; 70] O [] E).
      rewrite join_cons by apply split_go_not_nil.
      change [37; 50; 70] with (js "%2F"). by rewrite IH2. }
    destruct (is_lead x) eqn:Hl; [destruct (is_trail y) eqn:Ht|].
    + destruct (surrogate_pair_cp x y Hl Ht) as (_ & _ & Hcp & _).
      rewrite split_go_escape_cp, IH1 by done.
      by rewrite rev_app_distr, rev_involutive, <- app_assoc.
    + rewrite split_go_escape_cp, IH2 by done.
      by rewrite rev_app_distr, rev_involutive, <- app_assoc.
    + rewrite split_go_escape_cp, IH2 by done.
      by rewrite rev_app_distr, rev_involutive, <- app_assoc.
Qed.

(** ** _encodeUri on arbitrary paths *)

Lemma wellformed_normalizePath p : wellformed (normalizePath p) = wellformed p.
Proof.
  unfold normalizePath. destruct p as [|c p]; [done|].
  repeat (case_bool_decide; simplify_eq/=); done.
Qed.

Lemma valid_normalizePath p : valid p → valid (normalizePath p).
Proof.
  intros Hp. unfold normalizePath. destruct p as [|c p].
  - repeat constructor.
  - repeat (case_bool_decide; simplify_eq/=); try done.
    constructor; [done | exact Hp].
Qed.

Lemma encodeUri_escapeWith p :
  encodeUri p = if wellformed p
                then Ok (escapeWith keptInPath (normalizePath p))
                else Throw URIError.
Proof.
  unfold encodeUri, encodeURIComponent.
  rewrite Encode_escapeWith, wellformed_normalizePath.
  destruct (wellformed p); [|done]. cbn [mbind result_bind]. f_equal.
  apply (join_split_escapeWith []).
Qed.

Lemma utf8_encode_bytes cp :
  cp < 1114112 → Forall (λ b, b < 256) (utf8_encode cp).
Proof.
  intros Hcp. unfold utf8_encode. bool_cases.
  all: repeat constructor. all: lia_div.
Qed.

Lemma escape_cp_alphabet cp :
  cp < 1114112 →
  Forall (λ c, uriUnreserved c = true ∨ c = 47 ∨ c = 37) (escape_cp cp).
Proof.
  intros Hcp. unfold escape_cp.
  induction (utf8_encode_bytes cp Hcp) as [|b bs Hb _ IH]; [constructor|].
  cbn [fmap list_fmap concat]. unfold pct at 1. cbn [app].
  constructor; [by right; right|].
  constructor; [left; apply hexdigit_unreserved; lia_div|].
  constructor; [left; apply hexdigit_unreserved; lia_div|]. exact IH.
Qed.

Lemma escapeWith_alphabet s :
  valid s → wellformed s = true →
  Forall (λ c, uriUnreserved c = true ∨ c = 47 ∨ c = 37)
    (escapeWith keptInPath s).
Proof.
  induction s as [|x|x y l IH1 IH2] using list_ind2; intros Hv Hwf;
    [constructor|..]; rewrite escapeWith_cons;
    rewrite wellformed_cons in Hwf; inversion Hv as [|?? Hx Hv']; subst.
  - destruct (keptInPath x) eqn:Hk.
    { unfold keptInPath in Hk. apply orb_true_iff in Hk as [?|?%N.eqb_eq];
        (constructor; [auto | constructor]). }
    destruct (is_lead x); [done|]. rewrite app_nil_r.
    apply escape_cp_alphabet. lia.
  - assert (keptInPath x = true →
            Forall (λ c, uriUnreserved c = true ∨ c = 47 ∨ c = 37) [x]) as Hkx.
    { unfold keptInPath. intros [?|?%N.eqb_eq]%orb_true_iff;
        (constructor; [auto | constructor]). }
    destruct (keptInPath x) eqn:Hk.
    { destruct (keptInPath_ascii _ Hk) as [Hlt _].
      destruct (ascii_not_surrogate _ Hlt) as [Hl Ht].
      rewrite Hl, Ht in Hwf. apply (Forall_app_2 _ [x]); auto. }
    destruct (is_lead x) eqn:Hl.
    + apply andb_true_iff in Hwf as [Ht Hwf]. rewrite Ht.
      destruct (surrogate_pair_cp x y Hl Ht) as (Hcp & _).
      inversion Hv'; subst.
      apply Forall_app_2; [by apply escape_cp_alphabet | by apply IH1].
    + apply andb_true_iff in Hwf as [_ Hwf].
      apply Forall_app_2; [apply escape_cp_alphabet; lia | by apply IH2].
Qed.

(** X1. For every path without unpaired surrogates [_encodeUri] returns,
    and percent-decoding what it returns gives back the normalized path:
    the encoding loses nothing. *)
Theorem encodeUri_decodes :
  ∀ p, valid p → wellformed p = true →
       ∃ e, encodeUri p = Ok e ∧ decodeURIComponent e = Ok (normalizePath p).
Proof.
  intros p Hv Hwf. rewrite encodeUri_escapeWith, Hwf. eexists. split; [done|].
  apply Decode_escapeWith.
  - apply keptInPath_ascii.
  - by apply valid_normalizePath.
  - by rewrite wellformed_normalizePath.
Qed.

Lemma encodeUri_decodes_witness :
  ∃ e, encodeUri (js "My Files/r" ++ [233; 55357; 56832] ++ js "sum%.txt")
       = Ok e
       ∧ decodeURIComponent e
         = Ok (js "/My Files/r" ++ [233; 55357; 56832] ++ js "sum%.txt").
Proof.
  apply (encodeUri_decodes
           (js "My Files/r" ++ [233; 55357; 56832] ++ js "sum%.txt")).
  - unfold valid. apply Forall_forall. intros c Hc. vm_compute in Hc.
    repeat (apply elem_of_cons in Hc as [->|Hc]; [reflexivity|]).
    by apply elem_of_nil in Hc.
  - reflexivity.
Defined.

(** X2. [_encodeUri] raises [URIError] exactly for the paths that contain
    an unpaired surrogate; for every other path it returns. *)
Theorem encodeUri_raises_iff :
  ∀ p, (encodeUri p = Throw URIError ↔ wellformed p = false)
       ∧ ((∃ e, encodeUri p = Ok e) ↔ wellformed p = true).
Proof.
  intros p. rewrite encodeUri_escapeWith.
  destruct (wellformed p); split; split; try done; eauto.
  by intros [e ?].
Qed.

(** X3. What [_encodeUri] returns is made of unreserved code units, ['/']
    and ['%'] only. *)
Theorem encodeUri_alphabet :
  ∀ p e, valid p → encodeUri p = Ok e →
         Forall (λ c, uriUnreserved c = true ∨ c = cu "/" ∨ c = cu "%") e.
Proof.
  intros p e Hv. rewrite encodeUri_escapeWith.
  destruct (wellformed p) eqn:Hwf; [|done]. intros [= <-].
  apply escapeWith_alphabet.
  - by apply valid_normalizePath.
  - by rewrite wellformed_normalizePath.
Qed.

Lemma encodeUri_alphabet_witness :
  Forall (λ c, uriUnreserved c = true ∨ c = cu "/" ∨ c = cu "%")
    (js "/a%20b/%C3%A9").
Proof.
  apply (encodeUri_alphabet (js "a b/" ++ [233])).
  - unfold valid. repeat constructor.
  - reflexivity.
Defined.

(** ** Segments of an escaped path *)

Lemma split_go_block c B rest cur :
  Forall (λ b, b ≠ c) B →
  split_go [c] O cur (B ++ rest) = split_go [c] O (rev B ++ cur) rest.
Proof.
  intros HB. revert cur. induction HB as [|b B Hb _ IH]; intros cur; [done|].
  cbn [app]. rewrite split_go_step_nomatch by done.
  rewrite IH. cbn [rev]. by rewrite <- app_assoc.
Qed.

Lemma escape_cp_no_slash cp : Forall (λ b, b ≠ 47) (escape_cp cp).
Proof.
  unfold escape_cp. induction (utf8_encode cp) as [|b bs IH]; [constructor|].
  cbn [fmap list_fmap concat]. unfold pct at 1. cbn [app].
  pose proof (hexdigit_ge (b / 16)). pose proof (hexdigit_ge (b mod 16)).
  repeat (constructor; [lia_div|]). exact IH.
Qed.

Lemma decodeEscape_units s units span :
  decodeEscape s = Ok (units, span) → units ≠ [].
Proof.
  unfold decodeEscape. intros H. inv_bind H. destruct a as [b rest].
  destruct (leading_ones b) as [|[|[|[|[|]]]]]; simplify_eq; try done.
  all: inv_bind H; destruct (utf8_decode (b :: a)); simplify_eq.
  all: unfold utf16_encode; by destruct (_ <? _).
Qed.

Lemma Decode_nil e : Decode O e = Ok [] → e = [].
Proof.
  destruct e as [|c e]; [done|]. cbn [Decode].
  destruct (c =? 37); intros H; inv_bind H.
  - destruct a as [units span]. inv_bind H. simplify_eq.
    apply decodeEscape_units in Hbind. by destruct units.
  - simplify_eq.
Qed.

(** The pieces between the ['/'] of an escaped well-formed string decode to
    the pieces of the string itself. *)
Lemma split_go_escapeWith_decodes s curE cur :
  valid s → wellformed s = true →
  (∀ X Y, Decode O X = Ok Y → Decode O (rev curE ++ X) = Ok (rev cur ++ Y)) →
  Forall2 decodes_to (split_go (js "/") O curE (escapeWith keptInPath s))
                     (split_go (js "/") O cur s).
Proof.
  change (js "/") with [47]. revert curE cur.
  assert (∀ curE cur,
    (∀ X Y, Decode O X = Ok Y → Decode O (rev curE ++ X) = Ok (rev cur ++ Y)) →
    decodes_to (rev curE) (rev cur)) as Hend.
  { intros curE cur HI. specialize (HI [] [] eq_refl).
    by rewrite !app_nil_r in HI. }
  assert (∀ curE cur cp,
    cp < 1114112 → ¬ (55296 ≤ cp ≤ 57343) →
    (∀ X Y, Decode O X = Ok Y → Decode O (rev curE ++ X) = Ok (rev cur ++ Y)) →
    ∀ X Y, Decode O X = Ok Y →
      Decode O (rev (rev (escape_cp cp) ++ curE) ++ X)
      = Ok (rev (rev (utf16_encode cp) ++ cur) ++ Y)) as Hblock.
  { intros curE cur cp Hcp Hsur HI X Y HXY.
    rewrite !rev_app_distr, !rev_involutive, <- !app_assoc. apply HI.
    rewrite Decode_escape_cp by done. by rewrite HXY. }
  assert (∀ curE cur x,
    x ≠ 37 →
    (∀ X Y, Decode O X = Ok Y → Decode O (rev curE ++ X) = Ok (rev cur ++ Y)) →
    ∀ X Y, Decode O X = Ok Y →
      Decode O (rev (x :: curE) ++ X) = Ok (rev (x :: cur) ++ Y)) as Hunit.
  { intros curE cur x Hx HI X Y HXY. cbn [rev]. rewrite <- !app_assoc.
    apply HI. cbn [app]. rewrite Decode_plain_unit by done. by rewrite HXY. }
  induction s as [|x|x y l IH1 IH2] using list_ind2; intros curE cur Hv Hwf HI.
  - cbn [escapeWith split_go]. constructor; [by apply Hend | constructor].
  - rewrite escapeWith_cons. rewrite wellformed_cons in Hwf.
    inversion Hv as [|?? Hx _]; subst.
    destruct (N.eqb_spec x 47) as [->|Hne].
    { change (keptInPath 47) with true. cbn iota.
      cbn [escapeWith split_go starts_with length pred]. rewrite N.eqb_refl.
      cbn [andb]. constructor; [by apply Hend|]. by repeat constructor. }
    rewrite (split_go_step_nomatch 47 [] x cur []) by done.
    destruct (keptInPath x) eqn:Hk.
    { destruct (keptInPath_ascii _ Hk) as [_ ?].
      rewrite split_go_step_nomatch by done. cbn [escapeWith split_go].
      constructor; [|constructor]. apply Hend. by apply Hunit. }
    destruct (is_lead x) eqn:Hl; [done|].
    destruct (is_trail x) eqn:Ht; [done|].
    rewrite split_go_block by apply escape_cp_no_slash.
    cbn [escapeWith split_go]. constructor; [|constructor]. apply Hend.
    assert (utf16_encode x = [x]) as Hu
      by (unfold utf16_encode; by destruct (N.ltb_spec x 65536); [|lia]).
    specialize (Hblock curE cur x). rewrite Hu in Hblock.
    apply Hblock; [lia | by apply not_surrogate | done].
  - rewrite escapeWith_cons. rewrite wellformed_cons in Hwf.
    inversion Hv as [|?? Hx Hv']; subst.
    destruct (N.eqb_spec x 47) as [->|Hne].
    { change (keptInPath 47) with true. cbn iota.
      change (is_lead 47) with false in Hwf. cbn [is_trail negb andb] in Hwf.
      rewrite !(split_go_cons [47] _ 47). cbn [starts_with length pred].
      rewrite N.eqb_refl. cbn [andb].
      constructor; [by apply Hend|]. by apply IH2. }
    rewrite (split_go_step_nomatch 47 [] x cur) by done.
    destruct (keptInPath x) eqn:Hk.
    { destruct (keptInPath_ascii _ Hk) as [Hlt ?].
      destruct (ascii_not_surrogate _ Hlt) as [Hl Ht].
      rewrite Hl, Ht in Hwf. rewrite split_go_step_nomatch by done.
      apply IH2; [done.. |]. by apply Hunit. }
    destruct (is_lead x) eqn:Hl.
    + apply andb_true_iff in Hwf as [Ht Hwf]. rewrite Ht.
      destruct (surrogate_pair_cp x y Hl Ht) as (Hcp & Hsur & _ & Hpair).
      rewrite split_go_block by apply escape_cp_no_slash.
      assert (y ≠ 47) as Hy.
      { intros ->. by vm_compute in Ht. }
      rewrite (split_go_step_nomatch 47 [] y) by done.
      inversion Hv'; subst. apply IH1; [done..|].
      specialize (Hblock curE cur _ Hcp Hsur HI). by rewrite Hpair in Hblock.
    + apply andb_true_iff in Hwf as [Ht%negb_true_iff Hwf].
      rewrite split_go_block by apply escape_cp_no_slash.
      apply IH2; [done..|].
      assert (utf16_encode x = [x]) as Hu
        by (unfold utf16_encode; by destruct (N.ltb_spec x 65536); [|lia]).
      specialize (Hblock curE cur x). rewrite Hu in Hblock.
      apply Hblock; [lia | by apply not_surrogate | done].
Qed.

Lemma Forall2_filter_nonempty (es ds : list jsstring) :
  Forall2 decodes_to es ds →
  Forall2 decodes_to (filter (λ s, s ≠ js "") es) (filter (λ s, s ≠ js "") ds).
Proof.
  induction 1 as [|e d es ds Hed _ IH]; [constructor|].
  rewrite !filter_cons. change (js "") with (@nil N).
  destruct (decide (e = [])) as [->|He].
  - assert (d = []) as -> by (vm_compute in Hed; congruence).
    by rewrite !decide_False by (by intros H).
  - assert (d ≠ []) as Hd.
    { intros ->. by apply Decode_nil in Hed. }
    rewrite !decide_True by done. by constructor.
Qed.

(** The segments of an escaped well-formed path decode to the segments of
    the path. *)
Lemma segments_escapeWith s :
  valid s → wellformed s = true →
  Forall2 decodes_to (segments (escapeWith keptInPath s)) (segments s).
Proof.
  intros Hv Hwf. apply Forall2_filter_nonempty.
  by apply split_go_escapeWith_decodes.
Qed.

Lemma mapR_Forall2 {A B} (f : A → result B) es ds :
  Forall2 (λ e d, f e = Ok d) es ds → mapR f es = Ok ds.
Proof.
  induction 1 as [|e d es ds Hed _ IH]; [done|].
  cbn [mapR]. by rewrite Hed, IH.
Qed.

(** ** _extractPath on built and on sloppy hrefs *)

(** The resolution of an href whose first [remote.php] segment is followed
    by [webdav] or [dav]. *)
Lemma extractPath_resolves href lt r ds :
  (0 ≤ lt)%Z →
  Forall decodable (take r (segments href)) →
  first_remote (segments href) r →
  followed_by_dav (segments href) r →
  mapR decodeURIComponent (drop (r + Z.to_nat lt + 2) (segments href)) = Ok ds →
  extractPath href lt = Ok (Some (subPath_of ds)).
Proof.
  intros Hlt Hdec Hfirst (s & Hs & Hdav) Hds.
  rewrite (extractPath_found _ _ _ Hdec Hfirst), Hs.
  change (decodeURIComponent_elem (Some s)) with (decodeURIComponent s).
  assert (∃ d, decodeURIComponent s = Ok d
               ∧ indexOf [js "webdav"; js "dav"] d ≠ (-1)%Z) as (d & -> & Hd).
  { destruct Hdav as [H|H]; eexists; (split; [exact H | by vm_compute]). }
  cbn [mbind result_bind].
  destruct (Z.eqb_spec (indexOf [js "webdav"; js "dav"] d) (-1)) as [|_];
    [done|].
  replace (Z.of_nat r + lt + 2)%Z
    with (Z.of_nat (r + Z.to_nat lt + 2)) by lia.
  replace (Z.to_nat (len (segments href) - Z.of_nat (r + Z.to_nat lt + 2)))
    with (length (segments href) - (r + Z.to_nat lt + 2))%nat
    by (unfold len; lia).
  rewrite subPath_loop_drop, Hds. reflexivity.
Qed.

Lemma extractPath_segments h1 h2 lt :
  segments h1 = segments h2 → extractPath h1 lt = extractPath h2 lt.
Proof. intros Heq. by rewrite !extractPath_eq, Heq. Qed.

Lemma segments_nil : segments [] = [].
Proof. reflexivity. Qed.

Lemma normalizePath_rest p :
  ∃ rest, normalizePath p = 47 :: rest ∧ segments rest = segments p
          ∧ (valid p → valid rest) ∧ wellformed rest = wellformed p.
Proof.
  unfold normalizePath. change (js "/") with [47]. destruct p as [|c p].
  - exists []. by repeat split.
  - repeat (case_bool_decide; simplify_eq/=); try done.
    + exists (c :: p). by repeat split.
    + exists p. split_and!; [done| |by inversion 1|done].
      change (47 :: p) with ([] ++ js "/" ++ p).
      by rewrite (segments_app_slash [] p), segments_nil.
Qed.

(** The href built from a base URL, the [remote.php] marker with its
    variant segment and an encoded path resolves to the segments of the
    path after the first [n]. *)
Lemma extractPath_built base rw v path n :
  segments rw = [js "remote.php"; v] → v = js "webdav" ∨ v = js "dav" →
  Forall decodable (segments base) → no_remote (segments base) →
  valid path → wellformed path = true →
  extractPath (((base ++ js "/") ++ rw)
               ++ escapeWith keptInPath (normalizePath path)) (Z.of_nat n)
  = Ok (Some (subPath_of (drop n (segments path)))).
Proof.
  intros Hrw Hv Hdec Hno Hvalid Hwf.
  destruct (normalizePath_rest path) as (rest & -> & Hsegs & Hvr & Hwr).
  rewrite <- Hsegs. rewrite escapeWith_cons. change (keptInPath 47) with true.
  cbn iota.
  set (E := escapeWith keptInPath rest).
  assert (segments (((base ++ js "/") ++ rw) ++ 47 :: E)
          = segments base ++ [js "remote.php"; v] ++ segments E) as Hall.
  { replace (((base ++ js "/") ++ rw) ++ 47 :: E)
      with (base ++ js "/" ++ (rw ++ js "/" ++ E))
      by (by rewrite <- !app_assoc).
    by rewrite !segments_app_slash, Hrw. }
  assert (Forall2 decodes_to (segments E) (segments rest)) as HE
    by (apply segments_escapeWith; [auto | congruence]).
  apply (extractPath_resolves _ _ (length (segments base))); rewrite ?Hall.
  - lia.
  - by rewrite take_app_length.
  - split.
    + exists (js "remote.php"). split; [|done].
      by rewrite lookup_app_r, Nat.sub_diag by lia.
    + intros j s Hj Hs. rewrite lookup_app_l in Hs by done.
      apply Hno. by eapply list_elem_of_lookup_2.
  - exists v. split.
    + rewrite lookup_app_r by lia.
      by replace (S (length (segments base)) - length (segments base))%nat
        with 1%nat by lia.
    + destruct Hv as [-> | ->]; [by left | by right].
  - replace (length (segments base) + Z.to_nat (Z.of_nat n) + 2)%nat
      with (length (segments base) + (2 + n))%nat by lia.
    rewrite drop_app_add' by done. cbn [app]. rewrite <- drop_drop.
    change (drop 2 (?a :: ?b :: ?l)) with l.
    apply mapR_Forall2. by apply Forall2_drop.
Qed.

(** X4. After [setInstance] with a base URL that ends in ['/'], the URL
    that [_buildFullWebDAVPath] builds for a path resolves, through
    [_extractPath] with no extra components to trim, to the path itself:
    its non-empty segments, each behind a ['/']. *)
Theorem buildFullWebDAVPath_resolves :
  ∀ this base path,
    Forall decodable (segments base) → no_remote (segments base) →
    valid path → wellformed path = true →
    ∃ url,
      buildFullWebDAVPath (setInstance this (VStr (base ++ js "/"))) path
        = Ok url
      ∧ extractPath url 0 = Ok (Some (subPath_of (segments path))).
Proof.
  intros this base path Hdec Hno Hv Hwf.
  unfold buildFullWebDAVPath. rewrite encodeUri_escapeWith, Hwf.
  eexists. split; [done|].
  cbn [setInstance _webdavUrl ToString plus_str].
  by apply (extractPath_built base (js "remote.php/webdav") (js "webdav")
              path 0); [|left|..].
Qed.

Lemma buildFullWebDAVPath_resolves_witness :
  ∃ url,
    buildFullWebDAVPath
      (setInstance constructed (VStr (js "https://cloud.example.org/oc/")))
      (js "Photos//2019 summer/" ++ [233] ++ js ".jpg") = Ok url
    ∧ extractPath url 0
      = Ok (Some (js "/Photos/2019 summer/" ++ [233] ++ js ".jpg")).
Proof.
  apply (buildFullWebDAVPath_resolves constructed
           (js "https://cloud.example.org/oc")
           (js "Photos//2019 summer/" ++ [233] ++ js ".jpg")).
  - apply Forall_forall. intros s Hs. vm_compute in Hs.
    repeat (apply elem_of_cons in Hs as [->|Hs]; [by eexists|]).
    by apply elem_of_nil in Hs.
  - intros s Hs. vm_compute in Hs.
    repeat (apply elem_of_cons in Hs as [->|Hs]; [by vm_compute|]).
    by apply elem_of_nil in Hs.
  - unfold valid. apply Forall_forall. intros c Hc. vm_compute in Hc.
    repeat (apply elem_of_cons in Hc as [->|Hc]; [reflexivity|]).
    by apply elem_of_nil in Hc.
  - reflexivity.
Defined.

(** X5. Likewise for [_buildFullWebDAVPathV2]: the URL it builds resolves,
    when [_extractPath] is told to trim [n] leading components (such as
    [files/<user>]), to the segments of the path after the first [n]. *)
Theorem buildFullWebDAVPathV2_resolves :
  ∀ this base path (n : nat),
    Forall decodable (segments base) → no_remote (segments base) →
    valid path → wellformed path = true →
    ∃ url,
      buildFullWebDAVPathV2 (setInstance this (VStr (base ++ js "/"))) path
        = Ok url
      ∧ extractPath url (Z.of_nat n)
        = Ok (Some (subPath_of (drop n (segments path)))).
Proof.
  intros this base path n Hdec Hno Hv Hwf.
  unfold buildFullWebDAVPathV2. rewrite encodeUri_escapeWith, Hwf.
  eexists. split; [done|].
  cbn [setInstance _davPath ToString plus_str].
  by apply (extractPath_built base (js "remote.php/dav") (js "dav")
              path n); [|right|..].
Qed.

Lemma buildFullWebDAVPathV2_resolves_witness :
  ∃ url,
    buildFullWebDAVPathV2
      (setInstance constructed (VStr (js "http://localhost/")))
      (js "files/admin/a b/c.txt") = Ok url
    ∧ extractPath url 2 = Ok (Some (js "/a b/c.txt")).
Proof.
  apply (buildFullWebDAVPathV2_resolves constructed (js "http://localhost")
           (js "files/admin/a b/c.txt") 2).
  - apply Forall_forall. intros s Hs. vm_compute in Hs.
    repeat (apply elem_of_cons in Hs as [->|Hs]; [by eexists|]).
    by apply elem_of_nil in Hs.
  - intros s Hs. vm_compute in Hs.
    repeat (apply elem_of_cons in Hs as [->|Hs]; [by vm_compute|]).
    by apply elem_of_nil in Hs.
  - unfold valid. apply Forall_forall. intros c Hc. vm_compute in Hc.
    repeat (apply elem_of_cons in Hc as [->|Hc]; [reflexivity|]).
    by apply elem_of_nil in Hc.
  - reflexivity.
Defined.

(** X6. [_extractPath] does not see empty segments: a doubled ['/'], a
    trailing ['/'] and a leading ['/'] change nothing, whether it returns a
    path, [null] or raises. *)
Theorem extractPath_slashes :
  ∀ p q lt,
    extractPath (p ++ js "//" ++ q) lt = extractPath (p ++ js "/" ++ q) lt
    ∧ extractPath (p ++ js "/") lt = extractPath p lt
    ∧ extractPath (js "/" ++ p) lt = extractPath p lt.
Proof.
  intros p q lt. split_and!; apply extractPath_segments.
  - change (js "//" ++ q) with (js "/" ++ ([] ++ js "/" ++ q)).
    by rewrite !segments_app_slash, segments_nil.
  - rewrite <- (app_nil_r (js "/")), segments_app_slash, segments_nil.
    by rewrite app_nil_r.
  - change (js "/" ++ p) with ([] ++ js "/" ++ p).
    by rewrite (segments_app_slash [] p), segments_nil.
Qed.

Lemma subPath_loop_shape segs n i acc subPath :
  subPath_loop segs n i acc = Ok subPath →
  subPath = acc ∨ ∃ tail, subPath = acc ++ cu "/" :: tail.
Proof.
  revert i acc. induction n as [|n IH]; intros i acc H; cbn [subPath_loop] in H.
  - left. by simplify_eq.
  - inv_bind H. right. apply IH in H as [->|[tail ->]].
    + eexists. reflexivity.
    + eexists. rewrite <- app_assoc. reflexivity.
Qed.

Lemma extractPath_result_shape href lt subPath :
  extractPath href lt = Ok (Some subPath) →
  subPath = js "" ∨ ∃ tail, subPath = cu "/" :: tail.
Proof.
  intros H. rewrite extractPath_eq in H.
  inv_bind H. destruct (a =? -1)%Z; [done|]. inv_bind H.
  destruct (_ =? -1)%Z; [done|]. inv_bind H. simplify_eq.
  by apply subPath_loop_shape in Hbind1.
Qed.

(** X7. A path that [_extractPath] returns is empty or begins with ['/']. *)
Theorem extractPath_shape :
  ∀ href lt subPath,
    extractPath href lt = Ok (Some subPath) →
    subPath = js "" ∨ ∃ tail, subPath = cu "/" :: tail.
Proof. exact extractPath_result_shape. Qed.

Lemma extractPath_shape_witness :
  js "/docs/subdir" = js "" ∨ ∃ tail, js "/docs/subdir" = cu "/" :: tail.
Proof.
  apply (extractPath_shape (js "/remote.php/webdav/docs/subdir/") 0).
  reflexivity.
Defined.

(** ** _convertObjectToBool *)

Lemma toBool_idempotent v : toBool (toBool v) = toBool v.
Proof.
  unfold toBool. destruct v; try done.
  repeat (case_bool_decide; simplify_eq/=); done.
Qed.

Lemma toBool_other v :
  v ≠ VStr (js "true") → v ≠ VStr (js "false") → toBool v = v.
Proof.
  intros Ht Hf. unfold toBool. destruct v; try done.
  repeat (case_bool_decide; simplify_eq/=); done.
Qed.

(** X8. [_convertObjectToBool] is idempotent. *)
Theorem convertObjectToBool_idempotent :
  ∀ object,
    convertObjectToBool (convertObjectToBool object)
    = convertObjectToBool object.
Proof.
  intros [| | | | |elems|fields]; try done; cbn [convertObjectToBool]; f_equal.
  - rewrite <- list_fmap_compose. apply list_fmap_ext.
    intros i v _. apply toBool_idempotent.
  - rewrite <- list_fmap_compose. apply list_fmap_ext.
    intros i [k v] _. cbn. by rewrite toBool_idempotent.
Qed.

Lemma assoc_fmap_toBool k fields :
  assoc k ((λ kv, (kv.1, toBool kv.2)) <$> fields)
  = toBool <$> assoc k fields.
Proof.
  induction fields as [|[k' v] fields IH]; [done|].
  cbn [fmap list_fmap assoc fst snd]. fold (@fmap list _).
  destruct (decide (k' = k)); [done | exact IH].
Qed.

(** X9. [_convertObjectToBool] keeps the keys of the object, turns the
    property values ['true'] and ['false'] into the booleans, and leaves
    every other property value -- nested objects included -- as it is. *)
Theorem convertObjectToBool_properties :
  ∀ object,
    Object_keys (convertObjectToBool object) = Object_keys object
    ∧ ∀ k v,
        get object k = Ok v →
        (get (convertObjectToBool object) k = Ok (toBool v))
        ∧ (v = VStr (js "true") → toBool v = VBool true)
        ∧ (v = VStr (js "false") → toBool v = VBool false)
        ∧ (v ≠ VStr (js "true") → v ≠ VStr (js "false") → toBool v = v).
Proof.
  intros object. split.
  - destruct object as [| | | | |elems|fields]; try done;
      cbn [convertObjectToBool Object_keys].
    + by rewrite length_fmap.
    + f_equal. rewrite <- list_fmap_compose. by apply list_fmap_ext.
  - intros k v Hget. split_and!.
    + destruct object as [| | | | |elems|fields]; simplify_eq/=; try done.
      rewrite assoc_fmap_toBool. by destruct (assoc k fields).
    + by intros ->.
    + by intros ->.
    + apply toBool_other.
Qed.

Lemma convertObjectToBool_properties_witness :
  get (convertObjectToBool
         (VObj [(js "enabled", VStr (js "true"));
                (js "quota", VObj [(js "free", VStr (js "false"))])]))
      (js "quota")
  = Ok (VObj [(js "free", VStr (js "false"))]).
Proof.
  exact (proj1 (proj2 (convertObjectToBool_properties
    (VObj [(js "enabled", VStr (js "true"));
           (js "quota", VObj [(js "free", VStr (js "false"))])]))
    (js "quota") (VObj [(js "free", VStr (js "false"))]) eq_refl)).
Defined.

(** ** escapeXml *)

Lemma escapeChar_cases c :
  (c = 60 ∧ escapeChar c = js "&lt;")
  ∨ (c = 62 ∧ escapeChar c = js "&gt;")
  ∨ (c = 38 ∧ escapeChar c = js "&amp;")
  ∨ (c = 39 ∧ escapeChar c = js "&apos;")
  ∨ (c = 34 ∧ escapeChar c = js "&quot;")
  ∨ ((c ∉ markup) ∧ escapeChar c = [c]).
Proof.
  unfold escapeChar.
  destruct (N.eqb_spec c 60) as [->|?]; [by left|].
  destruct (N.eqb_spec c 62) as [->|?]; [by right; left|].
  destruct (N.eqb_spec c 38) as [->|?]; [by right; right; left|].
  destruct (N.eqb_spec c 39) as [->|?]; [by right; right; right; left|].
  destruct (N.eqb_spec c 34) as [->|?]; [by right; right; right; right; left|].
  do 5 right. split; [|done]. unfold markup. rewrite !not_elem_of_cons.
  split_and!; [done..|]. apply not_elem_of_nil.
Qed.

(** X10. The text [escapeXml] returns for a string contains no less-than
    sign, greater-than sign, apostrophe or double quote, and it is the
    string itself when the string has none of the five markup characters. *)
Theorem escapeXml_no_markup :
  ∀ s, ∃ e,
    escapeXml (VStr s) = VStr e
    ∧ Forall (λ c, c ∉ delimiters) e
    ∧ (Forall (λ c, c ∉ markup) s → e = s).
Proof.
  intros s. eexists. split; [reflexivity|]. split.
  - induction s as [|c s IH]; [constructor|].
    change ((c :: s) ≫= escapeChar) with (escapeChar c ++ (s ≫= escapeChar)).
    apply Forall_app_2; [|exact IH].
    destruct (escapeChar_cases c)
      as [[_ ->]|[[_ ->]|[[_ ->]|[[_ ->]|[[_ ->]|[Hc ->]]]]]].
    1-5: repeat constructor; unfold delimiters; rewrite !not_elem_of_cons;
         split_and!; (done || apply not_elem_of_nil).
    constructor; [|constructor]. unfold markup, delimiters in *. set_solver.
  - induction 1 as [|c s Hc _ IH]; [done|].
    change ((c :: s) ≫= escapeChar) with (escapeChar c ++ (s ≫= escapeChar)).
    rewrite IH.
    destruct (escapeChar_cases c)
      as [[-> _]|[[-> _]|[[-> _]|[[-> _]|[[-> _]|[_ ->]]]]]]; try done;
      exfalso; apply Hc; unfold markup; set_solver.
Qed.

Lemma escapeXml_text_injective s1 s2 :
  s1 ≫= escapeChar = s2 ≫= escapeChar → s1 = s2.
Proof.
  revert s2. induction s1 as [|c1 s1 IH]; intros [|c2 s2] H.
  - done.
  - change ((c2 :: s2) ≫= escapeChar)
      with (escapeChar c2 ++ (s2 ≫= escapeChar)) in H.
    destruct (escapeChar_cases c2)
      as [[_ E]|[[_ E]|[[_ E]|[[_ E]|[[_ E]|[_ E]]]]]]; rewrite E in H;
      discriminate H.
  - change ((c1 :: s1) ≫= escapeChar)
      with (escapeChar c1 ++ (s1 ≫= escapeChar)) in H.
    destruct (escapeChar_cases c1)
      as [[_ E]|[[_ E]|[[_ E]|[[_ E]|[[_ E]|[_ E]]]]]]; rewrite E in H;
      discriminate H.
  - change ((c1 :: s1) ≫= escapeChar)
      with (escapeChar c1 ++ (s1 ≫= escapeChar)) in H.
    change ((c2 :: s2) ≫= escapeChar)
      with (escapeChar c2 ++ (s2 ≫= escapeChar)) in H.
    destruct (escapeChar_cases c1)
      as [[-> E1]|[[-> E1]|[[-> E1]|[[-> E1]|[[-> E1]|[H1 E1]]]]]];
    destruct (escapeChar_cases c2)
      as [[-> E2]|[[-> E2]|[[-> E2]|[[-> E2]|[[-> E2]|[H2 E2]]]]]];
    rewrite ?E1, ?E2 in H; cbn in H; simplify_eq;
    try (f_equal; by apply IH);
    try (exfalso; unfold markup in *; set_solver).
Qed.

(** X11. [escapeXml] loses nothing: two strings with the same escaped text
    are the same string. *)
Theorem escapeXml_injective :
  ∀ s1 s2, escapeXml (VStr s1) = escapeXml (VStr s2) → s1 = s2.
Proof.
  intros s1 s2 H. cbn [escapeXml] in H. apply escapeXml_text_injective.
  congruence.
Qed.

Lemma escapeXml_injective_witness : js "a<b&amp;" = js "a<b&amp;".
Proof. apply (escapeXml_injective (js "a<b&amp;") (js "a<b&amp;")). done. Defined.

(** ** parseInt of a Number *)

Lemma js_String a s : js (String a s) = N_of_ascii a :: js s.
Proof. reflexivity. Qed.

Lemma js_string_of_uint d : js (NilEmpty.string_of_uint d) = digit_units d.
Proof.
  induction d; cbn [NilEmpty.string_of_uint digit_units]; [done|..];
    rewrite js_String, IHd; reflexivity.
Qed.

Lemma digits_units d a :
  digits 10 (Some a) (digit_units d) = Some (uint_val d a).
Proof.
  revert a. induction d; intros a; cbn [digit_units uint_val digits]; [done|..].
  all: match goal with
       | |- context [digitVal 10 ?c] =>
         let v := eval vm_compute in (digitVal 10 c) in
         change (digitVal 10 c) with v
       end; cbn [default from_option id]; rewrite IHd; do 2 f_equal; lia.
Qed.

Lemma uint_val_acc d (acc : positive) :
  uint_val d (Z.pos acc) = Z.pos (Pos.of_uint_acc d acc).
Proof.
  revert acc. induction d; intros acc; cbn [uint_val Pos.of_uint_acc]; [done|..];
    rewrite <- IHd; f_equal; lia.
Qed.

Lemma uint_val_0 d : uint_val d 0 = Z.of_N (Pos.of_uint d).
Proof.
  induction d; cbn [uint_val Pos.of_uint]; [done | done |..];
    cbn [Z.mul Z.add Z.of_N]; apply uint_val_acc.
Qed.

(** The numeral of a non-negative integer parses to the integer. *)
Lemma parseInt_digits d :
  d ≠ Decimal.Nil → parseInt (VStr (digit_units d)) = Some (uint_val d 0).
Proof.
  intros Hd. destruct d as [|d|d|d|d|d|d|d|d|d|d]; [done|..].
  2-10: unfold parseInt; simpl; rewrite digits_units;
    cbn [fmap option_fmap option_map]; f_equal; rewrite Z.mul_1_l;
    reflexivity.
  destruct d as [|d|d|d|d|d|d|d|d|d|d]; [reflexivity|..].
  all: unfold parseInt; simpl; rewrite digits_units;
    cbn [fmap option_fmap option_map]; f_equal; rewrite Z.mul_1_l;
    reflexivity.
Qed.

Lemma parseInt_neg_digits d :
  d ≠ Decimal.Nil →
  parseInt (VStr (45 :: digit_units d)) = Some (- uint_val d 0)%Z.
Proof.
  intros Hd. destruct d as [|d|d|d|d|d|d|d|d|d|d]; [done|..].
  2-10: unfold parseInt; simpl; rewrite digits_units;
    cbn [fmap option_fmap option_map]; f_equal;
    rewrite Z.mul_comm, <- Z.opp_eq_mul_m1; reflexivity.
  destruct d as [|d|d|d|d|d|d|d|d|d|d]; [reflexivity|..].
  all: unfold parseInt; simpl; rewrite digits_units;
    cbn [fmap option_fmap option_map]; f_equal;
    rewrite Z.mul_comm, <- Z.opp_eq_mul_m1; reflexivity.
Qed.

(** [parseInt] of a safe-integer Number is the Number. *)
Lemma parseInt_VNum z : safe_integer z → parseInt (VNum z) = Some z.
Proof.
  intros _.
  assert (∀ p, NilZero.string_of_uint (Pos.to_uint p)
               = NilEmpty.string_of_uint (Pos.to_uint p)) as Hnz.
  { intros p. pose proof (DecimalPos.Unsigned.to_uint_nonnil p).
    by destruct (Pos.to_uint p). }
  destruct z as [|p|p].
  - reflexivity.
  - change (parseInt (VNum (Z.pos p)))
      with (parseInt (VStr (js (NilZero.string_of_uint (Pos.to_uint p))))).
    rewrite Hnz, js_string_of_uint, parseInt_digits, uint_val_0
      by apply DecimalPos.Unsigned.to_uint_nonnil.
    by rewrite DecimalPos.Unsigned.of_to.
  - change (parseInt (VNum (Z.neg p)))
      with (parseInt (VStr (js (String "-"
              (NilZero.string_of_uint (Pos.to_uint p)))))).
    rewrite js_String, Hnz, js_string_of_uint.
    change (N_of_ascii "-") with 45.
    rewrite parseInt_neg_digits, uint_val_0
      by apply DecimalPos.Unsigned.to_uint_nonnil.
    by rewrite DecimalPos.Unsigned.of_to.
Qed.

(** ** More on _checkOCSstatus and _checkOCSstatusCode *)

Lemma indexOf_num_neg codes n :
  indexOf_num codes n = (-1)%Z ↔ ∀ z, n = Some z → z ∉ codes.
Proof.
  destruct n as [z|]; cbn [indexOf_num]; [|naive_solver].
  unfold indexOf. rewrite indexOf_from_neg by done. naive_solver.
Qed.

(** An error payload is an object or a message with keys, never
    [undefined]. *)
Lemma error_payload_truthy fields message v :
  (keys ← Object_keys message;
   if (len keys =? 0)%Z then Ok (VObj fields) else Ok message) = Ok v →
  truthy v = true.
Proof.
  intros H. inv_bind H. rename a into keys.
  destruct (Z.eqb_spec (len keys) 0) as [|Hne]; simplify_eq; [done|].
  destruct v as [| | | |[|??]|[|??]|[|??]]; simplify_eq/=; done.
Qed.

Lemma checkOCSstatus_meta_undefined fields mfields codes :
  ocs_meta (VObj fields) = Some (VObj mfields) →
  checkOCSstatus (VObj fields) codes = Ok VUndefined ↔
  ∃ n, parseInt (default VUndefined (assoc (js "statuscode") mfields)) = Some n
       ∧ n ∈ default [100%Z] codes.
Proof.
  intros Hm. rewrite (checkOCSstatus_meta _ _ _ Hm).
  cbn [get mbind result_bind].
  set (sc := default VUndefined (assoc (js "statuscode") mfields)).
  destruct (Z.eqb_spec (indexOf_num (default [100%Z] codes) (parseInt sc)) (-1))
    as [Hidx|Hidx].
  - rewrite indexOf_num_neg in Hidx. split.
    + intros H. apply error_payload_truthy in H. done.
    + intros (n & Hn & Hin). by destruct (Hidx n Hn).
  - split; [intros _|done].
    destruct (parseInt sc) as [n|]; [|done]. exists n. split; [done|].
    cbn [indexOf_num] in Hidx. unfold indexOf in Hidx.
    rewrite indexOf_from_neg in Hidx by done. by apply dec_stable in Hidx.
Qed.

(** X12. For an envelope whose [ocs.meta] is an object, [_checkOCSstatus]
    reports no error exactly when [meta.statuscode] parses to an integer
    among the accepted codes: a missing or non-numeric status code always
    counts as an error. *)
Theorem checkOCSstatus_no_error_iff :
  ∀ fields mfields codes,
    ocs_meta (VObj fields) = Some (VObj mfields) →
    checkOCSstatus (VObj fields) codes = Ok VUndefined ↔
    ∃ n, parseInt (default VUndefined (assoc (js "statuscode") mfields))
         = Some n
         ∧ n ∈ default [100%Z] codes.
Proof. exact checkOCSstatus_meta_undefined. Qed.

Lemma checkOCSstatus_no_error_iff_witness :
  checkOCSstatus (envelope 100 VNull) None = Ok VUndefined ↔
  ∃ n, parseInt (default VUndefined
                   (assoc (js "statuscode")
                      [(js "statuscode", VNum 100); (js "message", VNull)]))
       = Some n
       ∧ n ∈ default [100%Z] None.
Proof.
  exact (checkOCSstatus_no_error_iff
    [(js "ocs",
      VObj [(js "meta",
             VObj [(js "statuscode", VNum 100); (js "message", VNull)])])]
    [(js "statuscode", VNum 100); (js "message", VNull)] None eq_refl).
Defined.

Lemma checkOCSstatus_result json codes v :
  checkOCSstatus json codes = Ok v → v = VUndefined ∨ truthy v = true.
Proof.
  unfold checkOCSstatus. intros H. inv_bind H. rename a into ocs.
  inv_bind H. rename a into meta.
  destruct (truthy meta) eqn:Hmeta; [|left; by simplify_eq].
  inv_bind H. rename a into sc.
  destruct (_ =? -1)%Z; [|left; by simplify_eq].
  inv_bind H. rename a into message. right.
  destruct (truthy ocs) eqn:Hocs; [|by simplify_eq].
  destruct json; simplify_eq/=.
  by eapply error_payload_truthy.
Qed.

(** X13. Whatever [_checkOCSstatus] returns is [undefined] or truthy: the
    callers' test [if (error)] misses no error value. *)
Theorem checkOCSstatus_truthy_error :
  ∀ json codes v,
    checkOCSstatus json codes = Ok v → v = VUndefined ∨ truthy v = true.
Proof. exact checkOCSstatus_result. Qed.

Lemma checkOCSstatus_truthy_error_witness :
  envelope 404 (VStr (js "")) = VUndefined
  ∨ truthy (envelope 404 (VStr (js ""))) = true.
Proof.
  exact (checkOCSstatus_truthy_error (envelope 404 (VStr (js ""))) None _
           eq_refl).
Defined.

(** X14. When the status code is not accepted and [meta.message] is
    missing, [undefined] or [null], [_checkOCSstatus] raises [TypeError]
    instead of returning an error value. *)
Theorem checkOCSstatus_missing_message :
  ∀ fields mfields codes,
    ocs_meta (VObj fields) = Some (VObj mfields) →
    (∀ n, parseInt (default VUndefined (assoc (js "statuscode") mfields))
          = Some n → n ∉ default [100%Z] codes) →
    assoc (js "message") mfields = None
    ∨ assoc (js "message") mfields = Some VUndefined
    ∨ assoc (js "message") mfields = Some VNull →
    checkOCSstatus (VObj fields) codes = Throw TypeError.
Proof.
  intros fields mfields codes Hm Hcode Hmsg.
  rewrite (checkOCSstatus_meta _ _ _ Hm). cbn [get mbind result_bind].
  rewrite (proj2 (Z.eqb_eq _ _)) by (by apply indexOf_num_neg).
  by destruct Hmsg as [->|[->| ->]].
Qed.

Lemma checkOCSstatus_missing_message_witness :
  checkOCSstatus
    (VObj [(js "ocs", VObj [(js "meta", VObj [(js "statuscode", VNum 404)])])])
    None
  = Throw TypeError.
Proof.
  apply (checkOCSstatus_missing_message
           [(js "ocs", VObj [(js "meta", VObj [(js "statuscode", VNum 404)])])]
           [(js "statuscode", VNum 404)] None).
  - reflexivity.
  - intros n [= <-]. cbn. set_solver.
  - by left.
Defined.

(** X15. For the envelope [{ocs: {meta: {statuscode: n, message: m}}}]
    with a numeric status code and a string message, the code and the
    accepted codes being safe integers, [_checkOCSstatus] returns
    [undefined] if [n] is accepted, else the message if it is not empty,
    else the envelope. *)
Theorem checkOCSstatus_numeric_envelope :
  ∀ n m codes,
    safe_integer n → Forall safe_integer (default [100%Z] codes) →
    checkOCSstatus (envelope n (VStr m)) codes
    = Ok (if bool_decide (n ∈ default [100%Z] codes) then VUndefined
          else if bool_decide (m = js "") then envelope n (VStr m)
          else VStr m).
Proof.
  intros n m codes Hn Hcodes. unfold envelope at 1.
  rewrite (checkOCSstatus_meta
             [(js "ocs",
               VObj [(js "meta",
                      VObj [(js "statuscode", VNum n);
                            (js "message", VStr m)])])]
             [(js "statuscode", VNum n); (js "message", VStr m)] codes eq_refl).
  change (get _ (js "statuscode")) with (Ok (VNum n)).
  cbn [mbind result_bind]. rewrite parseInt_VNum by done. cbn [indexOf_num].
  case_bool_decide as Hin.
  - destruct (Z.eqb_spec (indexOf (default [100%Z] codes) n) (-1)) as [Hi|];
      [|done].
    unfold indexOf in Hi. by rewrite indexOf_from_neg in Hi.
  - rewrite (proj2 (Z.eqb_eq _ _))
      by (unfold indexOf; by rewrite indexOf_from_neg).
    change (get _ (js "message")) with (Ok (VStr m)).
    cbn [mbind result_bind Object_keys]. unfold len. rewrite length_fmap, length_seq.
    change (js "") with (@nil N). destruct m; [by rewrite bool_decide_eq_true_2|].
    by rewrite bool_decide_eq_false_2.
Qed.

Lemma checkOCSstatus_numeric_envelope_witness :
  checkOCSstatus (envelope 404 (VStr (js "Wrong path"))) (Some [100; 101]%Z)
  = Ok (VStr (js "Wrong path")).
Proof.
  refine (checkOCSstatus_numeric_envelope 404%Z (js "Wrong path")
            (Some [100; 101]%Z) _ _).
  - unfold safe_integer. lia.
  - repeat constructor; unfold safe_integer; lia.
Defined.

(** X16. Where [_checkOCSstatusCode] yields an integer code, the verdict
    of [_checkOCSstatus] is whether that code is accepted; but on an
    envelope whose [ocs] has no [meta], [_checkOCSstatusCode] raises
    [TypeError] while [_checkOCSstatus] reports no error. *)
Theorem checkOCSstatusCode_agrees :
  (∀ json n codes,
     checkOCSstatusCode json = Ok (Some (Some n)) →
     checkOCSstatus json codes = Ok VUndefined ↔ n ∈ default [100%Z] codes)
  ∧ (∀ fields ofields codes,
       assoc (js "ocs") fields = Some (VObj ofields) →
       assoc (js "meta") ofields = None →
       checkOCSstatusCode (VObj fields) = Throw TypeError
       ∧ checkOCSstatus (VObj fields) codes = Ok VUndefined).
Proof.
  split.
  - intros json n codes H. unfold checkOCSstatusCode in H.
    inv_bind H. rename a into ocs.
    destruct (truthy ocs) eqn:Hocs; [|done].
    inv_bind H. rename a into meta. inv_bind H. rename a into sc.
    injection H as Hn.
    destruct (statuscode_meta_object _ _ _ Hbind1 Hn) as [mfields ->].
    destruct json as [| | | | | |fields]; simplify_eq/=.
    destruct (assoc (js "ocs") fields) as [[| | | | | |ofields]|] eqn:Ho;
      simplify_eq/=.
    destruct (assoc (js "meta") ofields) as [meta|] eqn:Hmeta; simplify_eq/=.
    rewrite (checkOCSstatus_meta_undefined fields mfields codes)
      by (unfold ocs_meta; by rewrite Ho).
    rewrite Hn. naive_solver.
  - intros fields ofields codes Ho Hmeta. split.
    + unfold checkOCSstatusCode. cbn [get mbind result_bind]. rewrite Ho.
      cbn [default from_option id truthy get mbind result_bind].
      by rewrite Hmeta.
    + unfold checkOCSstatus. cbn [get mbind result_bind]. rewrite Ho.
      cbn [default from_option id truthy get mbind result_bind].
      by rewrite Hmeta.
Qed.

Lemma checkOCSstatusCode_agrees_witness :
  checkOCSstatus (envelope 997 VNull) (Some [100; 997]%Z) = Ok VUndefined
  ↔ 997%Z ∈ default [100%Z] (Some [100; 997]%Z).
Proof.
  exact (proj1 checkOCSstatusCode_agrees (envelope 997 VNull) 997%Z
           (Some [100; 997]%Z) eq_refl).
Defined.

(** ** _OCSuserResponseHandler *)

(** X17. Whenever [_OCSuserResponseHandler] does not raise, the last call
    it makes is [resolve(true)], and at most a [reject] comes before it;
    for a reply [{data: {ocs: {meta: {statuscode: n, ...}}}}] whose status
    code is a safe integer, the [reject] is there exactly when the code is
    999.  On a reply whose [ocs] has no [meta] it raises [TypeError] and
    calls neither. *)
Theorem OCSuserResponseHandler_calls :
  (∀ n message,
     safe_integer n →
     OCSuserResponseHandler (VObj [(js "data", envelope n message)])
     = Ok ((if bool_decide (n = 999%Z)
            then [CallReject
                    (VStr (js "Provisioning API has been disabled at your instance"))]
            else [])
           ++ [CallResolve (VBool true)]))
  ∧ (∀ data calls,
       OCSuserResponseHandler data = Ok calls →
       last calls = Some (CallResolve (VBool true))
       ∧ (length calls ≤ 2)%nat
       ∧ ∀ c, c ∈ calls → c ≠ CallResolve (VBool true) →
              calls = [c; CallResolve (VBool true)] ∧ ∃ reason, c = CallReject reason)
  ∧ (∀ fields ofields,
       assoc (js "ocs") fields = Some (VObj ofields) →
       assoc (js "meta") ofields = None →
       OCSuserResponseHandler (VObj [(js "data", VObj fields)])
       = Throw TypeError).
Proof.
  split_and!.
  - intros n message Hn. unfold OCSuserResponseHandler.
    change (get _ (js "data")) with (Ok (envelope n message)).
    cbn [mbind result_bind].
    change (checkOCSstatusCode (envelope n message))
      with (Ok (Some (parseInt (VNum n)))).
    cbn [mbind result_bind]. rewrite parseInt_VNum by done.
    cbn [parseInt_code]. rewrite parseInt_VNum by done.
    destruct (decide (n = 999%Z)) as [->|Hne].
    + by rewrite !bool_decide_eq_true_2.
    + by rewrite !bool_decide_eq_false_2 by congruence.
  - intros data calls H. unfold OCSuserResponseHandler in H.
    inv_bind H. inv_bind H. simplify_eq.
    split; [by rewrite last_snoc|].
    case_bool_decide; cbn [app length]; (split; [lia|]); intros c Hc Hne.
    + apply elem_of_cons in Hc as [->|Hc]; [by eauto|].
      apply list_elem_of_singleton in Hc. done.
    + apply list_elem_of_singleton in Hc. done.
  - intros fields ofields Ho Hmeta. unfold OCSuserResponseHandler.
    change (get _ (js "data")) with (Ok (VObj fields)).
    cbn [mbind result_bind]. unfold checkOCSstatusCode.
    cbn [get mbind result_bind]. rewrite Ho.
    cbn [default from_option id truthy get mbind result_bind].
    by rewrite Hmeta.
Qed.

Lemma OCSuserResponseHandler_calls_witness :
  OCSuserResponseHandler
    (VObj [(js "data", envelope 999 (VStr (js "disabled")))])
  = Ok [CallReject
          (VStr (js "Provisioning API has been disabled at your instance"));
        CallResolve (VBool true)]
  ∧ last [CallResolve (VBool true)] = Some (CallResolve (VBool true))
  ∧ OCSuserResponseHandler
      (VObj [(js "data", VObj [(js "ocs", VObj [])])])
    = Throw TypeError.
Proof.
  split_and!.
  - refine (proj1 OCSuserResponseHandler_calls 999%Z (VStr (js "disabled")) _).
    unfold safe_integer. lia.
  - exact (proj1 (proj1 (proj2 OCSuserResponseHandler_calls)
             (VObj [(js "data", envelope 100 (VStr (js "OK")))])
             [CallResolve (VBool true)] eq_refl)).
  - exact (proj2 (proj2 OCSuserResponseHandler_calls)
             [(js "ocs", VObj [])] [] eq_refl eq_refl).
Defined.

(** ** The callback and the guards of _makeOCSrequest and _get *)

(** X18. [_makeOCSrequest] resolves only with a tree that one of the two
    parsers produced from the body and on which [_checkOCSstatus] found no
    error; a tree taken from JSON moreover has no top-level [message]. *)
Theorem ocsResponse_resolved_sound :
  ∀ xml2js JSONparse error response body r b data,
    ocsResponse xml2js JSONparse error response body = Resolved r b data →
    truthy error = false ∧ r = response ∧ b = body
    ∧ ∃ tree, data = Some tree
        ∧ checkOCSstatus tree None = Ok VUndefined
        ∧ (xml2js body = Ok tree
           ∨ (JSONparse body = Ok tree
              ∧ has_property (js "message") tree = Ok false)).
Proof.
  intros xml2js JSONparse error response body r b data H.
  unfold ocsResponse in H. destruct (truthy error); [done|].
  split; [done|].
  destruct (xml2js body) as [tree|e] eqn:Hxml; cbn [mbind result_bind] in H.
  - destruct (checkOCSstatus tree None) as [err|e] eqn:Hst;
      cbn [mbind result_bind] in H.
    + destruct (truthy err) eqn:Herr; [done|]. simplify_eq.
      split_and!; [done..|]. exists tree. split_and!; [done| |by left].
      destruct (checkOCSstatus_result _ _ _ Hst) as [->|?]; [done|congruence].
    + destruct (JSONparse body) as [jtree|e'] eqn:Hjson;
        cbn [mbind result_bind] in H; [|done].
      destruct (has_property (js "message") jtree) as [[]|e'] eqn:Hin;
        cbn [mbind result_bind] in H; [|..|done].
      * by destruct (get jtree (js "message")).
      * destruct (checkOCSstatus jtree None) as [err|e'] eqn:Hst';
          cbn [mbind result_bind] in H; [|done].
        destruct (truthy err) eqn:Herr; [done|]. simplify_eq.
        split_and!; [done..|]. exists jtree. split_and!; [done| |by right].
        destruct (checkOCSstatus_result _ _ _ Hst') as [->|?];
          [done|congruence].
  - destruct (JSONparse body) as [jtree|e'] eqn:Hjson;
      cbn [mbind result_bind] in H; [|done].
    destruct (has_property (js "message") jtree) as [[]|e'] eqn:Hin;
      cbn [mbind result_bind] in H; [|..|done].
    + by destruct (get jtree (js "message")).
    + destruct (checkOCSstatus jtree None) as [err|e'] eqn:Hst';
        cbn [mbind result_bind] in H; [|done].
      destruct (truthy err) eqn:Herr; [done|]. simplify_eq.
      split_and!; [done..|]. exists jtree. split_and!; [done| |by right].
      destruct (checkOCSstatus_result _ _ _ Hst') as [->|?];
        [done|congruence].
Qed.

Lemma ocsResponse_resolved_sound_witness :
  checkOCSstatus (envelope 100 (VStr (js "OK"))) None = Ok VUndefined.
Proof.
  destruct (ocsResponse_resolved_sound
    (λ _, Ok (envelope 100 (VStr (js "OK")))) (λ _, Throw TypeError)
    VNull VNull (js "<ocs/>") VNull (js "<ocs/>")
    (Some (envelope 100 (VStr (js "OK")))) eq_refl)
    as (_ & _ & _ & tree & Htree & Hst & _).
  injection Htree as <-. exact Hst.
Defined.

(** X19. When the body is not JSON, and either is not XML or is an XML
    envelope on which [_checkOCSstatus] raises (an error status without a
    message), the promise is rejected with ['Invalid response body: '
    followed by the body]. *)
Theorem ocsResponse_invalid_body :
  ∀ xml2js JSONparse error response body,
    truthy error = false →
    (∃ e, JSONparse body = Throw e) →
    ((∃ e, xml2js body = Throw e)
     ∨ ∃ tree e, xml2js body = Ok tree
                 ∧ checkOCSstatus tree None = Throw e) →
    ocsResponse xml2js JSONparse error response body
    = Rejected (VStr (js "Invalid response body: " ++ body)).
Proof.
  intros xml2js JSONparse error response body Herr [e Hjson] Hxml.
  unfold ocsResponse. rewrite Herr, Hjson.
  destruct Hxml as [[e' ->]|(tree & e' & -> & Hst)]; [done|].
  cbn [mbind result_bind]. by rewrite Hst.
Qed.

Lemma ocsResponse_invalid_body_witness :
  ocsResponse
    (λ _, Ok (VObj [(js "ocs",
                     VObj [(js "meta", VObj [(js "statuscode", VNum 404)])])]))
    (λ _, Throw TypeError) VNull VNull (js "<ocs>...</ocs>")
  = Rejected (VStr (js "Invalid response body: <ocs>...</ocs>")).
Proof.
  apply ocsResponse_invalid_body; [done | by eexists | right].
  by eexists _, _.
Defined.

(** X20. A request goes out only from a session that has both an instance
    and an authorization; after [logout] neither [_makeOCSrequest] nor
    [_get] sends anything, and [_get] names the missing authorization even
    when the instance is missing too. *)
Theorem requests_need_session :
  (∀ env this method service action data options,
     makeOCSrequest env this method service action data = Ok (inr options) →
     truthy (instance this) = true ∧ truthy (_authHeader this) = true)
  ∧ (∀ this target options,
       get_ this target = inr options →
       truthy (instance this) = true ∧ truthy (_authHeader this) = true)
  ∧ (∀ env this method service action data,
       ∃ reason,
         makeOCSrequest env (logout this) method service action data
         = Ok (inl reason))
  ∧ (∀ this target,
       get_ (logout this) target
       = inl (js "Please specify an authorization first.")).
Proof.
  split_and!.
  - intros env this method service action data options H.
    unfold makeOCSrequest in H.
    destruct (truthy (instance this)); [|done].
    by destruct (truthy (_authHeader this)).
  - intros this target options H. unfold get_ in H.
    destruct (truthy (instance this)); destruct (truthy (_authHeader this));
      done.
  - intros env this method service action data. unfold makeOCSrequest.
    destruct (truthy (instance (logout this))); cbn; eauto.
  - intros this target. unfold get_. cbn.
    by destruct (truthy (instance this)).
Qed.

Lemma requests_need_session_witness :
  truthy (VStr (js "https://cloud.example.org/")) = true
  ∧ truthy (VStr (js "Basic YWRtaW46YWRtaW4=")) = true.
Proof.
  exact (proj1 (proj2 requests_need_session)
    (setAuthorization
       (setInstance constructed (VStr (js "https://cloud.example.org/")))
       (VStr (js "Basic YWRtaW46YWRtaW4=")))
    (js "https://cloud.example.org/status.php") _ eq_refl).
Defined.

(** ** _parseDAVerror *)

(** X21. What [_parseDAVerror] returns, if it is neither ['Unknown error']
    nor the empty string, is the string found at [d:error] / [s:message]
    of the parsed body. *)
Theorem parseDAVerror_message :
  ∀ xml2js body message,
    parseDAVerror xml2js body = message →
    message ≠ js "Unknown error" → message ≠ js "" →
    ∃ tree derror,
      xml2js body = Ok tree
      ∧ get tree (js "d:error") = Ok derror
      ∧ get derror (js "s:message") = Ok (VStr message).
Proof.
  intros xml2js body message H Hunk Hemp. unfold parseDAVerror in H.
  destruct (xml2js body) as [tree|e] eqn:Hxml; [|by simplify_eq/=].
  cbn [mbind result_bind] in H.
  destruct (get tree (js "d:error")) as [derror|e] eqn:Hde;
    [|by simplify_eq/=].
  cbn [mbind result_bind] in H.
  destruct (truthy derror) eqn:Hd.
  - destruct (get derror (js "s:message")) as [smessage|e] eqn:Hsm;
      [|by simplify_eq/=].
    cbn [mbind result_bind] in H.
    destruct (truthy smessage); [|by simplify_eq/=].
    destruct smessage; simplify_eq/=; eauto.
  - cbn [mbind result_bind] in H. rewrite Hd in H. by simplify_eq/=.
Qed.

Lemma parseDAVerror_message_witness :
  ∃ tree derror,
    (λ _ : jsstring,
       Ok (VObj [(js "d:error",
                  VObj [(js "s:message", VStr (js "File not found"))])]))
      (js "<d:error/>") = Ok tree
    ∧ get tree (js "d:error") = Ok derror
    ∧ get derror (js "s:message") = Ok (VStr (js "File not found")).
Proof.
  apply (parseDAVerror_message
    (λ _, Ok (VObj [(js "d:error",
                     VObj [(js "s:message", VStr (js "File not found"))])]))
    (js "<d:error/>") (js "File not found")); done.
Defined.

(** ** More on _parseFileInfo and _parseBody *)

(** X22. A record that [_parseFileInfo] returns has the resolved path of
    the href as its name and carries the whole property map of the first
    property-status block, whose status is [HTTP/1.1 200 OK]. *)
Theorem parseFileInfo_record :
  ∀ response lt info,
    parseFileInfo response lt = Ok (Some info) →
    extractPath (href response) lt = Ok (Some (FileInfo.name info))
    ∧ ∃ ps rest,
        propStat response = ps :: rest
        ∧ status ps = js "HTTP/1.1 200 OK"
        ∧ FileInfo.properties info = properties ps
        ∧ fileTypeOf (properties ps !! js "{DAV:}resourcetype")
          = Ok (FileInfo.type info).
Proof.
  intros [h pss] lt info H. unfold parseFileInfo in H. cbn [href propStat] in *.
  inv_bind H. destruct a as [path|]; [|done].
  destruct pss as [|ps rest]; [done|].
  change (at_index (ps :: rest) 0) with (Some ps) in H.
  cbn [fmap option_fmap option_map] in H.
  case_bool_decide as Hst; [by rewrite orb_true_r in H|].
  injection Hst as Hst.
  destruct (_ || _); [done|]. inv_bind H. simplify_eq.
  split; [done|]. by exists ps, rest.
Qed.

Lemma parseFileInfo_record_witness :
  extractPath (href (subdirEntry (davNode (js "d:collection")))) 0
  = Ok (Some (js "/docs/subdir")).
Proof.
  exact (proj1 (parseFileInfo_record
    (subdirEntry (davNode (js "d:collection"))) 0%Z
    (FileInfo.new (js "/docs/subdir") dir
       {[ js "{DAV:}resourcetype" := PNodes [davNode (js "d:collection")] ]})
    eq_refl)).
Defined.

Lemma parseBody_loop_acc l lt acc :
  parseBody_loop l lt acc = infos ← parseBody_loop l lt []; Ok (acc ++ infos).
Proof.
  revert acc. induction l as [|r l IH]; intros acc; cbn [parseBody_loop].
  - cbn. by rewrite app_nil_r.
  - destruct (parseFileInfo r lt) as [[info|]|e]; cbn [mbind result_bind];
      [|done..].
    rewrite (IH (acc ++ [info])), (IH ([] ++ [info])).
    destruct (parseBody_loop l lt []); cbn [mbind result_bind]; [|done].
    by rewrite <- app_assoc.
Qed.

Lemma parseBody_loop_app l1 l2 lt acc :
  parseBody_loop (l1 ++ l2) lt acc
  = acc' ← parseBody_loop l1 lt acc; parseBody_loop l2 lt acc'.
Proof.
  revert acc. induction l1 as [|r l1 IH]; intros acc; [done|].
  cbn [app parseBody_loop].
  destruct (parseFileInfo r lt); cbn [mbind result_bind]; [|done]. apply IH.
Qed.

(** X23. [_parseBody] works entry by entry: the result for two arrays of
    entries put one after the other is the result for the first followed
    by the result for the second, and an exception in either is an
    exception of the whole. *)
Theorem parseBody_app :
  ∀ l1 l2 lt,
    parseBody (Many (l1 ++ l2)) lt
    = infos1 ← parseBody (Many l1) lt;
      infos2 ← parseBody (Many l2) lt;
      Ok (infos1 ++ infos2).
Proof.
  intros l1 l2 lt. unfold parseBody. rewrite parseBody_loop_app.
  destruct (parseBody_loop l1 lt []) as [infos1|e]; cbn [mbind result_bind];
    [|done].
  apply parseBody_loop_acc.
Qed.

Lemma parseFileInfo_name response lt info :
  parseFileInfo response lt = Ok (Some info) →
  extractPath (href response) lt = Ok (Some (FileInfo.name info)).
Proof.
  intros H. unfold parseFileInfo in H. inv_bind H.
  destruct a as [path|]; [|done]. destruct (_ || _); [done|].
  destruct (at_index (propStat response) 0); [|done].
  inv_bind H. by simplify_eq.
Qed.

(** X24. When the href resolves and the first status is [HTTP/1.1 200 OK]
    but the resource type is an empty list of child elements,
    [_parseFileInfo] raises [TypeError]. *)
Theorem parseFileInfo_empty_resourcetype :
  ∀ response lt path ps rest,
    extractPath (href response) lt = Ok (Some path) →
    propStat response = ps :: rest →
    status ps = js "HTTP/1.1 200 OK" →
    properties ps !! js "{DAV:}resourcetype" = Some (PNodes []) →
    parseFileInfo response lt = Throw TypeError.
Proof.
  intros [h pss] lt path ps rest Hpath Hpss Hst Hrt. cbn [href propStat] in *.
  subst pss. unfold parseFileInfo. cbn [href propStat]. rewrite Hpath.
  cbn [mbind result_bind]. change (at_index (ps :: rest) 0) with (Some ps).
  cbn [fmap option_fmap option_map]. rewrite Hst.
  rewrite bool_decide_eq_false_2 by (by intros H). cbn [orb].
  change (len (ps :: rest) =? 0)%Z with false. cbn iota. by rewrite Hrt.
Qed.

Lemma parseFileInfo_empty_resourcetype_witness :
  parseFileInfo
    {| href := js "/remote.php/webdav/a";
       propStat := [ {| status := js "HTTP/1.1 200 OK";
                        properties :=
                          {[ js "{DAV:}resourcetype" := PNodes [] ]} |} ] |} 0
  = Throw TypeError.
Proof.
  apply (parseFileInfo_empty_resourcetype _ 0%Z (js "/a")
           {| status := js "HTTP/1.1 200 OK";
              properties := {[ js "{DAV:}resourcetype" := PNodes [] ]} |} []);
    reflexivity.
Defined.

(** X25. [_parseFileInfo] returns [null] exactly when the href does not
    resolve, or it resolves and the property-status list is empty or
    starts with a status other than [HTTP/1.1 200 OK]. *)
Theorem parseFileInfo_null_iff :
  ∀ response lt,
    parseFileInfo response lt = Ok None ↔
    extractPath (href response) lt = Ok None
    ∨ ∃ path, extractPath (href response) lt = Ok (Some path)
        ∧ (propStat response = []
           ∨ ∃ ps rest, propStat response = ps :: rest
               ∧ status ps ≠ js "HTTP/1.1 200 OK").
Proof.
  intros [h pss] lt. unfold parseFileInfo. cbn [href propStat].
  destruct (extractPath h lt) as [[path|]|e]; cbn [mbind result_bind].
  - destruct pss as [|ps rest].
    + split; [intros _|done]. right. exists path. split; [done | by left].
    + change (at_index (ps :: rest) 0) with (Some ps).
      cbn [fmap option_fmap option_map].
      change (len (ps :: rest) =? 0)%Z with false. cbn [orb].
      case_bool_decide as Hst.
      * split; [intros _|done]. right. exists path. split; [done|right].
        exists ps, rest. split; [done|]. congruence.
      * split.
        -- intros H. by destruct (fileTypeOf _).
        -- intros [?|(? & _ & [?|(ps' & rest' & ? & Hne)])]; simplify_eq.
  - split; [by left | done].
  - split; [done|]. intros [?|(? & ? & _)]; done.
Qed.

Lemma parseBody_loop_elem l lt acc infos info :
  parseBody_loop l lt acc = Ok infos → info ∈ infos →
  info ∈ acc ∨ ∃ r, r ∈ l ∧ parseFileInfo r lt = Ok (Some info).
Proof.
  revert acc. induction l as [|r l IH]; intros acc H Hin;
    cbn [parseBody_loop] in H.
  - left. by simplify_eq.
  - inv_bind H. destruct (IH _ H Hin) as [Hacc|(r' & Hr' & Hinfo)].
    + destruct a as [fi|]; [|by left].
      apply elem_of_app in Hacc as [?|Hfi]; [by left|].
      apply list_elem_of_singleton in Hfi as ->. right. exists r.
      split; [by left | done].
    + right. exists r'. split; [by right | done].
Qed.

(** X26. Every record in what [_parseBody] returns is the decoding of one
    of the entries, and its name is the empty string or a path that begins
    with ['/']. *)
Theorem parseBody_records :
  ∀ rs lt infos info,
    parseBody rs lt = Ok infos → info ∈ infos →
    (∃ r, r ∈ entries rs ∧ parseFileInfo r lt = Ok (Some info))
    ∧ (FileInfo.name info = js ""
       ∨ ∃ tail, FileInfo.name info = cu "/" :: tail).
Proof.
  intros rs lt infos info H Hin. unfold parseBody in H. fold (entries rs) in H.
  destruct (parseBody_loop_elem _ _ _ _ _ H Hin) as [Hnil|(r & Hr & Hinfo)];
    [by apply elem_of_nil in Hnil|].
  split; [by exists r|].
  apply parseFileInfo_name in Hinfo. by eapply extractPath_result_shape.
Qed.

Lemma parseBody_records_witness :
  FileInfo.name
    (FileInfo.new (js "/docs/subdir") dir
       {[ js "{DAV:}resourcetype" := PNodes [davNode (js "d:collection")] ]})
  = js ""
  ∨ ∃ tail,
      FileInfo.name
        (FileInfo.new (js "/docs/subdir") dir
           {[ js "{DAV:}resourcetype"
              := PNodes [davNode (js "d:collection")] ]})
      = cu "/" :: tail.
Proof.
  refine (proj2 (parseBody_records
    (One (subdirEntry (davNode (js "d:collection")))) 0%Z _ _ eq_refl _)).
  apply list_elem_of_singleton. reflexivity.
Defined.
